(** * Resume-Screening-RAG: the React client, embedded in Rocq

    The sources embedded here are the client of the resume screening tool:
    [api.ts] (the HTTP client), the components [ChatInterface.tsx],
    [FileUpload.tsx] and [MatchAnalysis.tsx], and [App.tsx].

    Conventions of the embedding.
    - A JavaScript string is the list of its UTF-16 code units.
    - A JavaScript number is an IEEE 754 binary64 value, [spec_float] of the
      Standard Library; only comparisons are performed on numbers here.
    - A React component is its state record, one function per handler and a
      [render] function from state to a view.  A [setX] call is a function
      on the state record; a handler is the composition of its calls.
    - An [async] handler is split at its [await]: the part that runs in the
      event, and the part that runs when the awaited promise settles.
    - What the JavaScript engine supplies and the repository does not define
      (printing a number, parsing a numeric string, the text of a
      [TypeError]) is a parameter, the class [Engine]. *)

From Stdlib Require Import ZArith NArith List String Ascii Bool Lia.
From Stdlib Require Import SpecFloat DecimalString.
From ExtLib Require Import Structures.Monad.
Import ListNotations.
Import MonadNotation.

Set Implicit Arguments.
Set Warnings "-register-all".

(* ================================================================== *)
(** * JavaScript values *)
(* ================================================================== *)

Module JS.

(** ** Strings *)

Definition jsstring := list N.

Definition str (s : string) : jsstring :=
  map N_of_ascii (list_ascii_of_string s).

Definition str_eqb (a b : jsstring) : bool :=
  if list_eq_dec N.eq_dec a b then true else false.

(** WhiteSpace and LineTerminator code points of ECMAScript, all of them in
    the basic plane: TAB, LF, VT, FF, CR, SP, NBSP, U+1680, U+2000..U+200A,
    U+2028, U+2029, U+202F, U+205F, U+3000 and U+FEFF. *)
Definition is_white (c : N) : bool :=
  ((9 <=? c) && (c <=? 13) || (c =? 32) || (c =? 160) || (c =? 5760)
   || (8192 <=? c) && (c <=? 8202) || (c =? 8232) || (c =? 8233)
   || (c =? 8239) || (c =? 8287) || (c =? 12288) || (c =? 65279))%N.

Fixpoint trimStart (s : jsstring) : jsstring :=
  match s with
  | c :: r => if is_white c then trimStart r else s
  | [] => []
  end.

Definition trimEnd (s : jsstring) : jsstring := rev (trimStart (rev s)).

(** [String.prototype.trim] *)
Definition trim (s : jsstring) : jsstring := trimEnd (trimStart s).

Fixpoint join (sep : jsstring) (l : list jsstring) : jsstring :=
  match l with
  | [] => []
  | [a] => a
  | a :: r => a ++ sep ++ join sep r
  end.

(** [String.prototype.split] with a separator of one code unit: the empty
    string splits into one empty piece. *)
Fixpoint split (sep : N) (s : jsstring) : list jsstring :=
  match s with
  | [] => [[]]
  | c :: r =>
      if (c =? sep)%N then [] :: split sep r
      else match split sep r with
           | w :: ws => (c :: w) :: ws
           | [] => [[c]]
           end
  end.

(** ** Numbers *)

Definition number := spec_float.

Definition NaN : number := S754_nan.
Definition pos_zero : number := S754_zero false.
Definition neg_zero : number := S754_zero true.
Definition pos_infinity : number := S754_infinity false.
Definition neg_infinity : number := S754_infinity true.

(** The binary64 value of an integer that binary64 holds exactly. *)
Definition number_of_Z (z : Z) : number := binary_normalize 53 1024 z 0 false.

Definition one : number := Eval vm_compute in number_of_Z 1.
Definition hundred : number := Eval vm_compute in number_of_Z 100.

Definition is_nan (x : number) : bool :=
  match x with S754_nan => true | _ => false end.

Definition is_pos_zero (x : number) : bool :=
  match x with S754_zero false => true | _ => false end.

Definition is_neg_zero (x : number) : bool :=
  match x with S754_zero true => true | _ => false end.

(** [Math.max]: NaN if an argument is NaN; otherwise the scan of the
    language definition, which starts from -Infinity and ranks +0 above -0. *)
Definition max_step (highest n : number) : number :=
  if is_pos_zero n && is_neg_zero highest then pos_zero
  else if SFltb highest n then n else highest.

Definition Math_max (args : list number) : number :=
  if existsb is_nan args then NaN else fold_left max_step args neg_infinity.

(** [Math.min]: the dual scan, from +Infinity, ranking -0 below +0. *)
Definition min_step (lowest n : number) : number :=
  if is_neg_zero n && is_pos_zero lowest then neg_zero
  else if SFltb n lowest then n else lowest.

Definition Math_min (args : list number) : number :=
  if existsb is_nan args then NaN else fold_left min_step args pos_infinity.

(** ** Values *)

Inductive jsval : Type :=
| JUndefined
| JNull
| JBool (b : bool)
| JNumber (x : number)
| JString (s : jsstring)
| JArray (items : list jsval)
| JObject (props : list (jsstring * jsval)).

(** What the engine supplies. *)
Class Engine : Type := {
  (** Number::toString *)
  NumberToString : number -> jsstring;
  (** StringToNumber *)
  StringToNumber : jsstring -> number;
  (** the message of the TypeError raised on reading property [k] of
      [undefined] or [null] *)
  NullPropertyMessage : jsval -> jsstring -> jsstring
}.

(** ToBoolean *)
Definition truthy (v : jsval) : bool :=
  match v with
  | JUndefined | JNull => false
  | JBool b => b
  | JNumber x =>
      match x with
      | S754_nan | S754_zero _ => false
      | _ => true
      end
  | JString s => match s with [] => false | _ => true end
  | JArray _ | JObject _ => true
  end.

(** [a || b] *)
Definition or_else (a b : jsval) : jsval := if truthy a then a else b.

Section Conversions.
Context {E : Engine}.

(** ToString; an array prints its elements joined by commas, with
    [undefined] and [null] elements printed empty. *)
Fixpoint ToString (v : jsval) : jsstring :=
  match v with
  | JUndefined => str "undefined"
  | JNull => str "null"
  | JBool true => str "true"
  | JBool false => str "false"
  | JNumber x => NumberToString x
  | JString s => s
  | JArray items =>
      join (str ",")
        (map (fun x => match x with
                       | JUndefined | JNull => []
                       | _ => ToString x
                       end) items)
  | JObject _ => str "[object Object]"
  end.

(** ToNumber; arrays and objects go through their string form. *)
Definition ToNumber (v : jsval) : number :=
  match v with
  | JUndefined => NaN
  | JNull => pos_zero
  | JBool true => one
  | JBool false => pos_zero
  | JNumber x => x
  | JString s => StringToNumber s
  | JArray _ | JObject _ => StringToNumber (ToString v)
  end.
End Conversions.

(** ** Exceptions and settled promises *)

Inductive error_class := Error | TypeError | SyntaxError | OtherError.

(** Every exception of this program is an [Error] instance with a
    message. *)
Record exn := Exn { exn_class : error_class; exn_message : jsstring }.

Inductive result (A : Type) : Type :=
| Return (a : A)
| Throw (e : exn).
Arguments Return {A} a.
Arguments Throw {A} e.

Definition result_bind {A B} (r : result A) (k : A -> result B) : result B :=
  match r with
  | Return a => k a
  | Throw e => Throw e
  end.

(** Awaiting a settled promise and going on with its value. *)
#[global] Instance Monad_result : Monad result :=
  {| ret := @Return; bind := @result_bind |}.

(** [try { r } catch (e) { h e }] *)
Definition try_catch {A} (r : result A) (h : exn -> A) : A :=
  match r with
  | Return a => a
  | Throw e => h e
  end.

Section Properties.
Context {E : Engine}.

(** Own data property [k] of an object, read with [v.k].  Reading from
    [undefined] or [null] throws.  The names this program reads are not
    properties of arrays, strings, numbers or booleans. *)
Fixpoint lookup (k : jsstring) (props : list (jsstring * jsval)) : jsval :=
  match props with
  | [] => JUndefined
  | (k', v) :: r => if str_eqb k k' then v else lookup k r
  end.

Definition get (v : jsval) (k : jsstring) : result jsval :=
  match v with
  | JUndefined | JNull => Throw (Exn TypeError (NullPropertyMessage v k))
  | JObject props => Return (lookup k props)
  | _ => Return JUndefined
  end.

(** [v?.k] *)
Definition get_opt (v : jsval) (k : jsstring) : result jsval :=
  match v with
  | JUndefined | JNull => Return JUndefined
  | _ => get v k
  end.

(** [a[0]] on an array *)
Definition first (items : list jsval) : jsval :=
  match items with
  | [] => JUndefined
  | x :: _ => x
  end.
End Properties.

End JS.

(* ================================================================== *)
(** * api.ts: the HTTP client *)
(* ================================================================== *)

Module Api.
Import JS.
#[local] Open Scope monad_scope.

Definition API_BASE : jsstring := str "/api".

Module UploadResponse.
Record t := {
  success : bool;
  message : jsstring;
  filename : option jsstring;
  text_length : option number
}.
End UploadResponse.

Record MatchAnalysis := {
  (** declared [number]; the display component converts it with
      [Number()], so any value is admitted here *)
  match_score : jsval;
  strengths : list jsstring;
  gaps : list jsstring;
  key_insights : list jsstring;
  skill_overlap : list jsstring;
  missing_skills : list jsstring
}.

Module AnalysisResponse.
Record t := {
  success : bool;
  analysis : option MatchAnalysis;
  error : option jsstring
}.
End AnalysisResponse.

Inductive Role := user | assistant.

Record ChatMessage := { role : Role; content : jsstring }.

Record ChatRequest := { question : jsstring; history : list ChatMessage }.

Module ChatResponse.
Record t := {
  success : bool;
  answer : jsstring;
  error : option jsstring
}.
End ChatResponse.

(** ** Requests and responses of [fetch] *)

Record File := { file_name : jsstring; file_bytes : list N }.

Inductive Method := GET | POST.

Inductive Body :=
| NoBody
| FormData (entries : list (jsstring * File))
| Json (v : jsval).   (* the value handed to JSON.stringify *)

Record Request := {
  url : jsstring;
  method : Method;
  headers : list (jsstring * jsstring);
  body : Body
}.

(** A received response: the [ok] flag, and what [res.text()] and
    [res.json()] settle to.  [A] is the type the caller reads the parsed
    body at. *)
Record Response (A : Type) := {
  ok : bool;
  text : jsstring;
  json : result A
}.

(** An [async] function that awaits one [fetch]: the request it sends, and
    what its promise settles to once the fetch has settled ([Throw] for a
    fetch that rejected). *)
Record Async (A B : Type) := {
  request : Request;
  settle : result (Response A) -> result B
}.

Definition upload_to (path : jsstring) (file : File)
  : Async UploadResponse.t UploadResponse.t :=
  {| request := {| url := API_BASE ++ path; method := POST; headers := [];
                   body := FormData [(str "file", file)] |};
     settle := fun fetched =>
       res <- fetched ;;
       if negb (ok res) then Throw (Exn Error (text res))
       else json res |}.

Definition uploadResume (file : File) := upload_to (str "/upload/resume") file.

Definition uploadJD (file : File) := upload_to (str "/upload/jd") file.

Definition getAnalysis : Async AnalysisResponse.t AnalysisResponse.t :=
  {| request := {| url := API_BASE ++ str "/analysis"; method := GET;
                   headers := []; body := NoBody |};
     settle := fun fetched => res <- fetched ;; json res |}.

Definition role_name (r : Role) : jsstring :=
  match r with user => str "user" | assistant => str "assistant" end.

Definition ChatMessage_json (m : ChatMessage) : jsval :=
  JObject [(str "role", JString (role_name (role m)));
           (str "content", JString (content m))].

(** The object literal [{ question, history }]. *)
Definition ChatRequest_json (r : ChatRequest) : jsval :=
  JObject [(str "question", JString (question r));
           (str "history", JArray (map ChatMessage_json (history r)))].

Definition chat (question : jsstring) (history : list ChatMessage)
  : Async ChatResponse.t ChatResponse.t :=
  {| request := {| url := API_BASE ++ str "/chat"; method := POST;
                   headers := [(str "Content-Type", str "application/json")];
                   body := Json (ChatRequest_json
                                   {| question := question;
                                      history := history |}) |};
     settle := fun fetched => res <- fetched ;; json res |}.

End Api.

(* ================================================================== *)
(** * components/MatchAnalysis.tsx *)
(* ================================================================== *)

Module MatchAnalysis.
Import JS.

(** [x || d] on numbers *)
Definition num_or (x d : number) : number :=
  if truthy (JNumber x) then x else d.

Inductive li := Item (s : jsstring) | EmptyItem (s : jsstring).

Definition bullet_list (l : list jsstring) (none : jsstring) : list li :=
  match l with
  | [] => [EmptyItem none]
  | _ => map Item l
  end.

Record View := {
  score_ring_p : number;          (* the --p style property *)
  score_value : number;           (* the text before the percent sign *)
  overlapping : nat;
  missing : nat;
  strengths_block : list li;
  gaps_block : list li;
  insights_block : list li;
  skills_row : option (list jsstring * list jsstring)
}.

Section Component.
Context {E : Engine}.

Definition score (data : Api.MatchAnalysis) : number :=
  Math_max [pos_zero;
            Math_min [hundred;
                      num_or (ToNumber (Api.match_score data)) pos_zero]].

Definition render (data : Api.MatchAnalysis) : View :=
  {| score_ring_p := score data;
     score_value := score data;
     overlapping := List.length (Api.skill_overlap data);
     missing := List.length (Api.missing_skills data);
     strengths_block := bullet_list (Api.strengths data) (str "None identified");
     gaps_block := bullet_list (Api.gaps data) (str "None identified");
     insights_block := bullet_list (Api.key_insights data) (str "None");
     skills_row :=
       if (0 <? List.length (Api.skill_overlap data))
          || (0 <? List.length (Api.missing_skills data))
       then Some (Api.skill_overlap data, Api.missing_skills data)
       else None |}.

End Component.
End MatchAnalysis.

(* ================================================================== *)
(** * components/ChatInterface.tsx *)
(* ================================================================== *)

Module ChatInterface.
Import JS.
#[local] Open Scope monad_scope.

Record State := {
  messages : list Api.ChatMessage;
  input : jsstring;
  loading : bool;
  error : option jsstring
}.

Definition initial : State :=
  {| messages := []; input := []; loading := false; error := None |}.

Definition setMessages (f : list Api.ChatMessage -> list Api.ChatMessage)
  (s : State) : State :=
  {| messages := f (messages s); input := input s; loading := loading s;
     error := error s |}.

Definition setInput (v : jsstring) (s : State) : State :=
  {| messages := messages s; input := v; loading := loading s;
     error := error s |}.

Definition setLoading (b : bool) (s : State) : State :=
  {| messages := messages s; input := input s; loading := b;
     error := error s |}.

Definition setError (e : option jsstring) (s : State) : State :=
  {| messages := messages s; input := input s; loading := loading s;
     error := e |}.

Definition suggestions : list jsstring :=
  [ str "Summarize this candidate" ++ [8217%N]
      ++ str "s experience in 5 bullets.";
    str "What are the strongest technical skills shown in the resume?";
    str "Is there evidence of leadership or mentorship? Quote the resume sections.";
    str "Do they have hands-on experience with cloud (AWS/Azure/GCP)?";
    str "What risks or gaps should I probe in an interview?" ].

(** [!q] on a string *)
Definition is_empty (q : jsstring) : bool :=
  match q with [] => true | _ => false end.

(** [e || d] where [e] is an optional string *)
Definition str_or (e : option jsstring) (d : jsstring) : jsstring :=
  match e with
  | Some (c :: r) => c :: r
  | _ => d
  end.

(** [handleSubmit] up to its [await]: the state after the [setX] calls and
    the call [chat(q, messages)] it awaits, or the state unchanged and no
    call when the guard returns. *)
Definition handleSubmit (s : State)
  : State * option (Api.Async Api.ChatResponse.t Api.ChatResponse.t) :=
  let q := trim (input s) in
  if is_empty q || loading s then (s, None)
  else
    let userMsg := {| Api.role := Api.user; Api.content := q |} in
    (setLoading true
       (setMessages (fun prev => prev ++ [userMsg])
          (setError None (setInput [] s))),
     Some (Api.chat q (messages s))).

(** [handleSubmit] from the settled [chat] promise on: the [try] body, the
    [catch] and the [finally]. *)
Definition handleSubmit_settled (r : result Api.ChatResponse.t) (s : State)
  : State :=
  setLoading false
    (try_catch
       (res <- r ;;
        Return
          (if Api.ChatResponse.success res
           then setMessages
                  (fun prev =>
                     prev ++ [{| Api.role := Api.assistant;
                                 Api.content := Api.ChatResponse.answer res |}])
                  s
           else setError
                  (Some (str_or (Api.ChatResponse.error res)
                           (str "Failed to get response")))
                  s))
       (fun _ => setError (Some (str "Failed to send message")) s)).

Record View := {
  chips : option (list jsstring * bool);   (* the chips and their disabled flag *)
  placeholder : bool;
  rows : list (jsstring * jsstring);        (* label and content *)
  typing : bool;
  input_value : jsstring;
  input_disabled : bool;
  send_disabled : bool;
  error_line : option jsstring
}.

Definition render (s : State) : View :=
  {| chips := if (List.length (messages s) =? 0)
              then Some (suggestions, loading s) else None;
     placeholder := (List.length (messages s) =? 0);
     rows := map (fun m =>
                    (match Api.role m with
                     | Api.user => str "You"
                     | Api.assistant => str "AI"
                     end, Api.content m)) (messages s);
     typing := loading s;
     input_value := input s;
     input_disabled := loading s;
     send_disabled := loading s || is_empty (trim (input s));
     error_line := match error s with
                   | Some (c :: r) => Some (c :: r)
                   | _ => None
                   end |}.

(** ** The component as a transition system

    The state together with the [chat] calls that were sent and have not
    settled.  An event on a disabled or absent control changes nothing. *)

Inductive event :=
| Change (value : jsstring)            (* onChange of the text input *)
| ClickChip (i : nat)                  (* onClick of a suggestion *)
| Submit                               (* onSubmit of the form *)
| Settled (fetched : result (Api.Response Api.ChatResponse.t)).

Record Running := {
  state : State;
  inflight : list (Api.Async Api.ChatResponse.t Api.ChatResponse.t)
}.

Definition start : Running := {| state := initial; inflight := [] |}.

(** The next state and the requests sent by the event. *)
Definition step (c : Running) (e : event) : Running * list Api.Request :=
  let s := state c in
  match e with
  | Change v =>
      if input_disabled (render s) then (c, [])
      else ({| state := setInput v s; inflight := inflight c |}, [])
  | ClickChip i =>
      match chips (render s), nth_error suggestions i with
      | Some (_, false), Some t =>
          ({| state := setInput t s; inflight := inflight c |}, [])
      | _, _ => (c, [])
      end
  | Submit =>
      match handleSubmit s with
      | (s', Some call) =>
          ({| state := s'; inflight := inflight c ++ [call] |},
           [Api.request call])
      | (s', None) => ({| state := s'; inflight := inflight c |}, [])
      end
  | Settled fetched =>
      match inflight c with
      | [] => (c, [])
      | call :: rest =>
          ({| state := handleSubmit_settled (Api.settle call fetched) s;
              inflight := rest |}, [])
      end
  end.

Fixpoint run (c : Running) (evs : list event) : Running * list Api.Request :=
  match evs with
  | [] => (c, [])
  | e :: rest =>
      let (c1, sent1) := step c e in
      let (c2, sent2) := run c1 rest in
      (c2, sent1 ++ sent2)
  end.

End ChatInterface.

(* ================================================================== *)
(** * components/FileUpload.tsx *)
(* ================================================================== *)

Module FileUpload.
Import JS.
#[local] Open Scope monad_scope.

Inductive Status := idle | uploading | success | error.

(** The argument of [onSuccess]; its fields are read from an untyped
    response body. *)
Module Info.
Record t := { filename : jsval; text_length : jsval; message : jsval }.
End Info.

Record Props := { label : jsstring; accept : jsstring; endpoint : jsstring }.

Record State := {
  file : option Api.File;
  status : Status;
  message : jsval;
  isDragging : bool
}.

Definition initial : State :=
  {| file := None; status := idle; message := JString []; isDragging := false |}.

Definition setFile (f : option Api.File) (s : State) : State :=
  {| file := f; status := status s; message := message s;
     isDragging := isDragging s |}.

Definition setStatus (x : Status) (s : State) : State :=
  {| file := file s; status := x; message := message s;
     isDragging := isDragging s |}.

Definition setMessage (m : jsval) (s : State) : State :=
  {| file := file s; status := status s; message := m;
     isDragging := isDragging s |}.

Definition setIsDragging (b : bool) (s : State) : State :=
  {| file := file s; status := status s; message := message s;
     isDragging := b |}.

Definition handleChange (f : option Api.File) (s : State) : State :=
  setMessage (JString []) (setStatus idle (setFile f s)).

Definition setPickedFile (f : option Api.File) (s : State) : State :=
  setMessage (JString []) (setStatus idle (setFile f s)).

(** ** The handler monad: state updates and [onSuccess] calls made so far,
    and a value or a thrown exception. *)

Record Effects := { current : State; called : list Info.t }.

Definition Handler (A : Type) : Type := Effects -> Effects * result A.

#[local] Instance Monad_Handler : Monad Handler :=
  {| ret := fun A (a : A) w => (w, Return a);
     bind := fun A B (c : Handler A) (k : A -> Handler B) w =>
       match c w with
       | (w', Return a) => k a w'
       | (w', Throw e) => (w', Throw e)
       end |}.

Definition await {A} (r : result A) : Handler A := fun w => (w, r).

Definition throw {A} (e : exn) : Handler A := fun w => (w, Throw e).

Definition update (f : State -> State) : Handler unit :=
  fun w => ({| current := f (current w); called := called w |}, Return tt).

Definition onSuccess (i : Info.t) : Handler unit :=
  fun w => ({| current := current w; called := called w ++ [i] |}, Return tt).

(** [try { c } catch (err) { h err }] *)
Definition catch (c : Handler unit) (h : exn -> Handler unit) : Handler unit :=
  fun w =>
    match c w with
    | (w', Return tt) => (w', Return tt)
    | (w', Throw e) => h e w'
    end.

Section Component.
Context {E : Engine}.
Variable props : Props.

(** The separator of [helpText], as the source file has it: a space, the
    code units U+00E2, U+20AC and U+00A2, and a space. *)
Definition bullet : jsstring := [32; 226; 8364; 162; 32]%N.

(** The entries of [accept]: split at commas, trimmed, the empty ones
    dropped. *)
Definition entries : list jsstring :=
  filter (fun t => truthy (JString t)) (map trim (split 44 (accept props))).

Definition types : jsstring := join bullet entries.

Definition helpText : jsstring :=
  if truthy (JString types) then str "Accepted: " ++ types
  else str "Accepted: PDF or TXT".

(** [handleUpload] up to its first [await]. *)
Definition handleUpload (s : State) : State * option Api.Request :=
  match file s with
  | None => (s, None)
  | Some f =>
      (setMessage (JString []) (setStatus uploading s),
       Some {| Api.url := endpoint props; Api.method := Api.POST;
               Api.headers := [];
               Api.body := Api.FormData [(str "file", f)] |})
  end.

(** The text thrown for a response that is not OK. *)
Definition failure_text (data : jsval) : result jsstring :=
  detail <- get data (str "detail") ;;
  err <- match detail with
         | JString _ => Return detail
         | JArray items => get_opt (first items) (str "msg")
         | _ => Return (JString (str "Upload failed"))
         end ;;
  Return (ToString (or_else err (JString (str "Upload failed")))).

(** [handleUpload] from the settled [fetch] on. *)
Definition handleUpload_settled (fetched : result (Api.Response jsval))
  : Handler unit :=
  catch
    (res <- await fetched ;;
     let data := try_catch (Api.json res) (fun _ => JObject []) in
     (if negb (Api.ok res)
      then text <- await (failure_text data) ;; throw (Exn Error text)
      else ret tt) ;;
     update (setStatus success) ;;
     m <- await (get data (str "message")) ;;
     update (setMessage (or_else m (JString (str "Uploaded")))) ;;
     filename <- await (get data (str "filename")) ;;
     text_length <- await (get data (str "text_length")) ;;
     m' <- await (get data (str "message")) ;;
     onSuccess {| Info.filename := filename;
                  Info.text_length := text_length;
                  Info.message := m' |})
    (fun err =>
       update (setStatus error) ;;
       update (setMessage (JString (exn_message err)))).

Record View := {
  pill : Status;
  has_file : bool;
  clear_disabled : bool;
  upload_disabled : bool;
  message_line : option jsval
}.

(** [!file || status === "uploading"] *)
Definition actions_disabled (s : State) : bool :=
  match file s, status s with
  | None, _ => true
  | _, uploading => true
  | _, _ => false
  end.

Definition render (s : State) : View :=
  {| pill := status s;
     has_file := match file s with Some _ => true | None => false end;
     clear_disabled := actions_disabled s;
     upload_disabled := actions_disabled s;
     message_line := if truthy (message s) then Some (message s) else None |}.

(** ** The component as a transition system *)

Inductive event :=
| Change (f : option Api.File)    (* onChange of the file input *)
| Drag (over : bool)              (* onDragEnter, onDragOver, onDragLeave *)
| Drop (f : option Api.File)      (* onDrop *)
| ClickClear
| ClickUpload
| Settled (fetched : result (Api.Response jsval)).

Record Running := { state : State; inflight : nat }.

Definition start : Running := {| state := initial; inflight := 0 |}.

(** The next state, the requests sent and the [onSuccess] calls made. *)
Definition step (c : Running) (e : event)
  : Running * list Api.Request * list Info.t :=
  let s := state c in
  match e with
  | Change f =>
      ({| state := handleChange f s; inflight := inflight c |}, [], [])
  | Drag over =>
      ({| state := setIsDragging over s; inflight := inflight c |}, [], [])
  | Drop f =>
      ({| state := setPickedFile f (setIsDragging false s);
          inflight := inflight c |}, [], [])
  | ClickClear =>
      if clear_disabled (render s) then (c, [], [])
      else ({| state := setPickedFile None s; inflight := inflight c |}, [], [])
  | ClickUpload =>
      if upload_disabled (render s) then (c, [], [])
      else
        match handleUpload s with
        | (s', Some r) =>
            ({| state := s'; inflight := S (inflight c) |}, [r], [])
        | (s', None) => ({| state := s'; inflight := inflight c |}, [], [])
        end
  | Settled fetched =>
      match inflight c with
      | O => (c, [], [])
      | S n =>
          let (w, _) := handleUpload_settled fetched
                          {| current := s; called := [] |} in
          ({| state := current w; inflight := n |}, [], called w)
      end
  end.

(** The state after a sequence of events, the requests sent and the
    [onSuccess] calls made. *)
Fixpoint run (c : Running) (evs : list event)
  : Running * list Api.Request * list Info.t :=
  match evs with
  | [] => (c, [], [])
  | e :: rest =>
      let '(c1, reqs1, infos1) := step c e in
      let '(c2, reqs2, infos2) := run c1 rest in
      (c2, reqs1 ++ reqs2, infos1 ++ infos2)
  end.

End Component.
End FileUpload.

(* ================================================================== *)
(** * App.tsx *)
(* ================================================================== *)

Module App.
Import JS.
#[local] Open Scope monad_scope.

Record State := {
  resumeUploaded : bool;
  jdUploaded : bool;
  analysis : option Api.MatchAnalysis;
  analysisError : option jsstring;
  loading : bool;
  backendOk : option bool;
  resumeInfo : option FileUpload.Info.t;
  jdInfo : option FileUpload.Info.t
}.

Definition initial : State :=
  {| resumeUploaded := false; jdUploaded := false; analysis := None;
     analysisError := None; loading := false; backendOk := None;
     resumeInfo := None; jdInfo := None |}.

Definition setResumeUploaded (b : bool) (s : State) : State :=
  {| resumeUploaded := b; jdUploaded := jdUploaded s; analysis := analysis s;
     analysisError := analysisError s; loading := loading s;
     backendOk := backendOk s; resumeInfo := resumeInfo s; jdInfo := jdInfo s |}.

Definition setJdUploaded (b : bool) (s : State) : State :=
  {| resumeUploaded := resumeUploaded s; jdUploaded := b; analysis := analysis s;
     analysisError := analysisError s; loading := loading s;
     backendOk := backendOk s; resumeInfo := resumeInfo s; jdInfo := jdInfo s |}.

Definition setAnalysis (a : option Api.MatchAnalysis) (s : State) : State :=
  {| resumeUploaded := resumeUploaded s; jdUploaded := jdUploaded s;
     analysis := a; analysisError := analysisError s; loading := loading s;
     backendOk := backendOk s; resumeInfo := resumeInfo s; jdInfo := jdInfo s |}.

Definition setAnalysisError (e : option jsstring) (s : State) : State :=
  {| resumeUploaded := resumeUploaded s; jdUploaded := jdUploaded s;
     analysis := analysis s; analysisError := e; loading := loading s;
     backendOk := backendOk s; resumeInfo := resumeInfo s; jdInfo := jdInfo s |}.

Definition setLoading (b : bool) (s : State) : State :=
  {| resumeUploaded := resumeUploaded s; jdUploaded := jdUploaded s;
     analysis := analysis s; analysisError := analysisError s; loading := b;
     backendOk := backendOk s; resumeInfo := resumeInfo s; jdInfo := jdInfo s |}.

Definition setBackendOk (b : option bool) (s : State) : State :=
  {| resumeUploaded := resumeUploaded s; jdUploaded := jdUploaded s;
     analysis := analysis s; analysisError := analysisError s;
     loading := loading s; backendOk := b; resumeInfo := resumeInfo s;
     jdInfo := jdInfo s |}.

Definition setResumeInfo (i : option FileUpload.Info.t) (s : State) : State :=
  {| resumeUploaded := resumeUploaded s; jdUploaded := jdUploaded s;
     analysis := analysis s; analysisError := analysisError s;
     loading := loading s; backendOk := backendOk s; resumeInfo := i;
     jdInfo := jdInfo s |}.

Definition setJdInfo (i : option FileUpload.Info.t) (s : State) : State :=
  {| resumeUploaded := resumeUploaded s; jdUploaded := jdUploaded s;
     analysis := analysis s; analysisError := analysisError s;
     loading := loading s; backendOk := backendOk s;
     resumeInfo := resumeInfo s; jdInfo := i |}.

Definition handleResumeUpload (info : FileUpload.Info.t) (s : State) : State :=
  setResumeInfo (Some info)
    (setAnalysisError None (setAnalysis None (setResumeUploaded true s))).

Definition handleJDUpload (info : FileUpload.Info.t) (s : State) : State :=
  setJdInfo (Some info)
    (setAnalysisError None (setAnalysis None (setJdUploaded true s))).

(** The health check of the mount effect, from its settled [fetch] on. *)
Definition check_settled (fetched : result (Api.Response unit)) (s : State)
  : State :=
  try_catch
    (res <- fetched ;; Return (setBackendOk (Some (Api.ok res)) s))
    (fun _ => setBackendOk (Some false) s).

(** [loadAnalysis] up to its first [await]. *)
Definition loadAnalysis (s : State) : State * Api.Request :=
  (setAnalysisError None (setLoading true s),
   {| Api.url := str "/api/analysis"; Api.method := Api.GET;
      Api.headers := []; Api.body := Api.NoBody |}).

(** [loadAnalysis] from the settled [fetch] on. *)
Definition loadAnalysis_settled
  (fetched : result (Api.Response Api.AnalysisResponse.t)) (s : State) : State :=
  setLoading false
    (try_catch
       (res <- fetched ;;
        data <- Api.json res ;;
        Return
          (match Api.AnalysisResponse.success data,
                 Api.AnalysisResponse.analysis data with
           | true, Some a => setAnalysis (Some a) s
           | _, _ =>
               setAnalysisError
                 (Some (ChatInterface.str_or (Api.AnalysisResponse.error data)
                          (str "Failed to load analysis")))
                 s
           end))
       (fun _ => setAnalysisError (Some (str "Failed to fetch analysis")) s)).

Definition canAnalyze (s : State) : bool := resumeUploaded s && jdUploaded s.

Record QuickStats := { overlap : nat; missing : nat; strengths : nat; gaps : nat }.

Definition quickStats (s : State) : option QuickStats :=
  match analysis s with
  | None => None
  | Some a =>
      Some {| overlap := List.length (Api.skill_overlap a);
              missing := List.length (Api.missing_skills a);
              strengths := List.length (Api.strengths a);
              gaps := List.length (Api.gaps a) |}
  end.

(** The text of the backend badge. *)
Definition badge (s : State) : jsstring :=
  match backendOk s with
  | None => str "Checking backend..."
  | Some true => str "Backend connected"
  | Some false => str "Backend not reachable"
  end.

(** ** What is rendered *)

Inductive AnalysisSection :=
| AnalysisHint
| AnalysisPanel (run_disabled : bool) (stats : option QuickStats)
    (error_line : option jsstring) (panel : option MatchAnalysis.View).

Inductive ChatSection :=
| ChatHint
| ChatPanel (v : ChatInterface.View).

Record View := {
  resume_done : bool;
  jd_done : bool;
  analysis_done : bool;
  analysis_section : AnalysisSection;
  chat_section : ChatSection
}.

Section Render.
Context {E : Engine}.

Definition render (s : State) (chat : ChatInterface.State) : View :=
  {| resume_done := resumeUploaded s;
     jd_done := jdUploaded s;
     analysis_done := match analysis s with Some _ => true | None => false end;
     analysis_section :=
       if negb (canAnalyze s) then AnalysisHint
       else AnalysisPanel (loading s) (quickStats s)
              (match analysisError s with
               | Some (c :: r) => Some (c :: r)
               | _ => None
               end)
              (option_map MatchAnalysis.render (analysis s));
     chat_section :=
       if negb (resumeUploaded s) then ChatHint
       else ChatPanel (ChatInterface.render chat) |}.

End Render.

(** ** The page as a transition system

    The state of [App], of its two [FileUpload] children and of
    [ChatInterface], and the number of analysis requests that have not
    settled.  [ChatInterface] is mounted, and receives events, only where
    [render] shows it; an event on a disabled or absent control changes
    nothing. *)

Inductive Kind := Resume | JD.

Inductive event :=
| Upload (k : Kind) (e : FileUpload.event)
| ClickRunAnalysis
| AnalysisSettled (fetched : result (Api.Response Api.AnalysisResponse.t))
| Chat (e : ChatInterface.event)
| HealthSettled (fetched : result (Api.Response unit)).

(** A request, tagged with the code that sent it. *)
Inductive sent :=
| SentUpload (k : Kind) (r : Api.Request)
| SentAnalysis (r : Api.Request)
| SentChat (r : Api.Request).

Record Page := {
  app : State;
  resume : FileUpload.Running;
  jd : FileUpload.Running;
  chat : ChatInterface.Running;
  analysis_inflight : nat
}.

Definition start : Page :=
  {| app := initial; resume := FileUpload.start; jd := FileUpload.start;
     chat := ChatInterface.start; analysis_inflight := 0 |}.

Definition resume_props : FileUpload.Props :=
  {| FileUpload.label := str "Resume"; FileUpload.accept := str ".pdf,.txt";
     FileUpload.endpoint := str "/api/upload/resume" |}.

Definition jd_props : FileUpload.Props :=
  {| FileUpload.label := str "Job description";
     FileUpload.accept := str ".pdf,.txt";
     FileUpload.endpoint := str "/api/upload/jd" |}.

Section Machine.
Context {E : Engine}.

Definition step (p : Page) (e : event) : Page * list sent :=
  match e with
  | Upload Resume e' =>
      let '(c, reqs, infos) := FileUpload.step resume_props (resume p) e' in
      ({| app := fold_left (fun s i => handleResumeUpload i s) infos (app p);
          resume := c; jd := jd p; chat := chat p;
          analysis_inflight := analysis_inflight p |},
       map (SentUpload Resume) reqs)
  | Upload JD e' =>
      let '(c, reqs, infos) := FileUpload.step jd_props (jd p) e' in
      ({| app := fold_left (fun s i => handleJDUpload i s) infos (app p);
          resume := resume p; jd := c; chat := chat p;
          analysis_inflight := analysis_inflight p |},
       map (SentUpload JD) reqs)
  | ClickRunAnalysis =>
      match analysis_section (render (app p) (ChatInterface.state (chat p))) with
      | AnalysisPanel false _ _ _ =>
          let (s', r) := loadAnalysis (app p) in
          ({| app := s'; resume := resume p; jd := jd p; chat := chat p;
              analysis_inflight := S (analysis_inflight p) |},
           [SentAnalysis r])
      | _ => (p, [])
      end
  | AnalysisSettled fetched =>
      match analysis_inflight p with
      | O => (p, [])
      | S n =>
          ({| app := loadAnalysis_settled fetched (app p);
              resume := resume p; jd := jd p; chat := chat p;
              analysis_inflight := n |}, [])
      end
  | Chat e' =>
      match chat_section (render (app p) (ChatInterface.state (chat p))) with
      | ChatPanel _ =>
          let (c, reqs) := ChatInterface.step (chat p) e' in
          ({| app := app p; resume := resume p; jd := jd p; chat := c;
              analysis_inflight := analysis_inflight p |},
           map SentChat reqs)
      | ChatHint => (p, [])
      end
  | HealthSettled fetched =>
      ({| app := check_settled fetched (app p); resume := resume p;
          jd := jd p; chat := chat p;
          analysis_inflight := analysis_inflight p |}, [])
  end.

(** The state after a sequence of events, and what each event sent. *)
Fixpoint run (p : Page) (evs : list event) : Page * list (list sent) :=
  match evs with
  | [] => (p, [])
  | e :: rest =>
      let (p1, out) := step p e in
      let (p2, outs) := run p1 rest in
      (p2, out :: outs)
  end.

End Machine.
End App.

(* ================================================================== *)
(** * The context assembler of the backend *)
(* ================================================================== *)

Module ContextAssembler.
Import JS.

(** Modelled from the spec: the Chunk of section 3; the backend module that
    defines it is not among the sources. *)
Record Chunk := {
  id : Z;
  section_label : option jsstring;
  text : jsstring;
  source_document_id : Z
}.

(** Modelled from the spec: the prompt payload of section 4.5 (context
    assembly is backend code that is not among the sources): the fixed
    directive, the texts of the retrieved chunks, the truncated history and
    the question. *)
Record Payload := {
  system_instructions : jsstring;
  context : list jsstring;
  history : list Api.ChatMessage;
  question : jsstring
}.

(** Modelled from the spec: the bound of section 4.5 (b) on the messages of
    history kept. *)
Definition HISTORY_WINDOW : nat := 6.

(** Modelled from the spec: section 4.5 (b), the last [HISTORY_WINDOW]
    messages of the history, in the order they have in the history. *)
Definition truncate_history (h : list Api.ChatMessage) : list Api.ChatMessage :=
  skipn (List.length h - HISTORY_WINDOW) h.

(** Modelled from the spec: [assemble] of section 4.5; the backend function
    is not among the sources.  The directive is a parameter: the spec fixes
    its purpose and not its text. *)
Definition assemble (directive : jsstring) (chunks : list Chunk)
  (q : jsstring) (h : list Api.ChatMessage) : Payload :=
  {| system_instructions := directive;
     context := map text chunks;
     history := truncate_history h;
     question := q |}.

End ContextAssembler.

(* ================================================================== *)
(** * Statements that follow the specification's words *)
(* ================================================================== *)

Module Spec.
Import JS.

(** A number clamped to the interval [0,100]: 0 at or below 0, 100 at or
    above 100, the number itself in between. *)
Definition clamp_0_100 (x : number) : number :=
  if SFleb x pos_zero then pos_zero
  else if SFleb hundred x then hundred
  else x.

(** A value is numeric when [Number()] converts it to a number, and
    non-numeric when the conversion gives NaN. *)
Definition non_numeric {E : Engine} (v : jsval) : bool := is_nan (ToNumber v).

(** The messages a settled submission leaves after the user message. *)
Definition reply (r : result Api.ChatResponse.t) : list Api.ChatMessage :=
  match r with
  | Return res =>
      if Api.ChatResponse.success res
      then [{| Api.role := Api.assistant;
               Api.content := Api.ChatResponse.answer res |}]
      else []
  | Throw _ => []
  end.

(** One chat request is in flight exactly while [loading] is set. *)
Definition one_while_loading (c : ChatInterface.Running) : Prop :=
  List.length (ChatInterface.inflight c)
  = if ChatInterface.loading (ChatInterface.state c) then 1 else 0.

(** Membership in the interval [0,100]. *)
Definition within_0_100 (x : number) : Prop :=
  SFleb pos_zero x = true /\ SFleb x hundred = true.

(** [undefined] or [null] *)
Definition nullish (v : jsval) : bool :=
  match v with JUndefined | JNull => true | _ => false end.

(** Field [k] of a parsed body: [undefined] when the body is not an object
    or has no such field. *)
Definition field (data : jsval) (k : jsstring) : jsval :=
  match data with
  | JObject props => lookup k props
  | _ => JUndefined
  end.

(** The message derived from the [detail] field of a body: the string
    itself when [detail] is a string, the [msg] of the first item when it is
    an array, and in every other case, or when that is empty or absent, the
    text "Upload failed". *)
Definition detail_message {E : Engine} (detail : jsval) : jsstring :=
  ToString
    (or_else
       match detail with
       | JString s => JString s
       | JArray (item :: _) => field item (str "msg")
       | _ => JString (str "Upload failed")
       end
       (JString (str "Upload failed"))).

(** The argument [onSuccess] is called with for a body. *)
Definition info_of (data : jsval) : FileUpload.Info.t :=
  {| FileUpload.Info.filename := field data (str "filename");
     FileUpload.Info.text_length := field data (str "text_length");
     FileUpload.Info.message := field data (str "message") |}.

(** What the [catch] of [handleUpload] leaves behind: the status error, the
    message of the exception, and the calls of [onSuccess] as they were. *)
Definition upload_failed (text : jsstring) (w : FileUpload.Effects)
  : FileUpload.Effects :=
  {| FileUpload.current :=
       FileUpload.setMessage (JString text)
         (FileUpload.setStatus FileUpload.error (FileUpload.current w));
     FileUpload.called := FileUpload.called w |}.

(** What an accepted upload leaves behind: the status success, the message
    of the body or "Uploaded", and one more call of [onSuccess]. *)
Definition upload_done (data : jsval) (w : FileUpload.Effects)
  : FileUpload.Effects :=
  {| FileUpload.current :=
       FileUpload.setMessage
         (or_else (field data (str "message")) (JString (str "Uploaded")))
         (FileUpload.setStatus FileUpload.success (FileUpload.current w));
     FileUpload.called := FileUpload.called w ++ [info_of data] |}.

(** The messages of one role. *)
Definition of_role (r : Api.Role) (l : list Api.ChatMessage)
  : list Api.ChatMessage :=
  filter (fun m => match Api.role m, r with
                   | Api.user, Api.user | Api.assistant, Api.assistant => true
                   | _, _ => false
                   end) l.



(** The message of a [FileUpload] fits its status: none while idle or
    uploading, one that is shown after a success, a string after an
    error. *)
Definition message_fits_status (s : FileUpload.State) : Prop :=
  match FileUpload.status s with
  | FileUpload.idle | FileUpload.uploading =>
      FileUpload.message s = JString []
  | FileUpload.success => truthy (FileUpload.message s) = true
  | FileUpload.error => exists text, FileUpload.message s = JString text
  end.

(** A file was picked by an event: chosen in the file input or dropped. *)
Definition picked (f : Api.File) (e : FileUpload.event) : Prop :=
  e = FileUpload.Change (Some f) \/ e = FileUpload.Drop (Some f).

(** One analysis request is in flight exactly while [loading] is set. *)
Definition one_analysis_while_loading (p : App.Page) : Prop :=
  App.analysis_inflight p = if App.loading (App.app p) then 1 else 0.

(** An upload of kind [k] that succeeded: the event that settles a fetch
    of that kind's [FileUpload] with a response that is OK. *)
Definition succeeded (k : App.Kind) (e : App.event) : Prop :=
  exists res, e = App.Upload k (FileUpload.Settled (Return res))
              /\ Api.ok res = true.

End Spec.

(* ================================================================== *)
(** * Sample values *)
(* ================================================================== *)

Module Samples.
Import JS.

(** ** An engine

    The conversions of this engine are those of the language on the values
    the examples use: a number that is an integer below 10^21 is printed as
    its decimal numeral, and a string of decimal digits, with white space
    around it, is read as the integer it writes.  The message of the
    [TypeError] is V8's. *)

Definition integer_of (x : number) : option Z :=
  match x with
  | S754_zero _ => Some 0%Z
  | S754_finite s m e =>
      let sign (v : Z) := if s then (- v)%Z else v in
      if (0 <=? e)%Z then Some (sign (Z.pos m * 2 ^ e)%Z)
      else if (Z.pos m mod 2 ^ (- e) =? 0)%Z
           then Some (sign (Z.pos m / 2 ^ (- e))%Z)
           else None
  | _ => None
  end.

Definition numeral (n : N) : jsstring :=
  str (NilZero.string_of_uint (N.to_uint n)).

Definition print_number (x : number) : jsstring :=
  match x with
  | S754_nan => str "NaN"
  | S754_infinity false => str "Infinity"
  | S754_infinity true => str "-Infinity"
  | _ =>
      match integer_of x with
      | Some z =>
          if (Z.abs z <? 10 ^ 21)%Z
          then (if (z <? 0)%Z then str "-" else []) ++ numeral (Z.abs_N z)
          else str "NaN"
      | None => str "NaN"
      end
  end.

Definition is_digit (c : N) : bool := ((48 <=? c) && (c <=? 57))%N.

Definition digits_value (s : jsstring) : Z :=
  fold_left (fun acc c => (10 * acc + Z.of_N (c - 48))%Z) s 0%Z.

Definition read_number (s : jsstring) : number :=
  let t := trim s in
  match t with
  | [] => pos_zero
  | _ => if forallb is_digit t then number_of_Z (digits_value t) else NaN
  end.

Definition null_property_message (v : jsval) (k : jsstring) : jsstring :=
  str "Cannot read properties of "
  ++ match v with JNull => str "null" | _ => str "undefined" end
  ++ str " (reading '" ++ k ++ str "')".

#[local] Instance engine : Engine :=
  {| NumberToString := print_number;
     StringToNumber := read_number;
     NullPropertyMessage := null_property_message |}.

(** ** Files and responses *)

Definition resume_file : Api.File :=
  {| Api.file_name := str "cv.txt";
     Api.file_bytes := [74; 97; 110; 101; 32; 68; 111; 101]%N |}.

Definition jd_file : Api.File :=
  {| Api.file_name := str "role.txt";
     Api.file_bytes := [69; 110; 103; 105; 110; 101; 101; 114]%N |}.

(** [s] between double quotes *)
Definition quoted (s : string) : jsstring := [34%N] ++ str s ++ [34%N].

(** An upload accepted by the server. *)
Definition upload_ok (name : string) : Api.Response jsval :=
  {| Api.ok := true;
     Api.text := str "{" ++ quoted "success" ++ str ":true,"
                 ++ quoted "message" ++ str ":" ++ quoted "Indexed" ++ str ","
                 ++ quoted "filename" ++ str ":" ++ quoted name ++ str ","
                 ++ quoted "text_length" ++ str ":8}";
     Api.json := Return (JObject [(str "success", JBool true);
                                  (str "message", JString (str "Indexed"));
                                  (str "filename", JString (str name));
                                  (str "text_length", JNumber (number_of_Z 8))]) |}.

(** An upload refused with a [detail] string. *)
Definition upload_refused : Api.Response jsval :=
  {| Api.ok := false;
     Api.text := str "{" ++ quoted "detail" ++ str ":"
                 ++ quoted "Unsupported file type" ++ str "}";
     Api.json := Return (JObject [(str "detail",
                                   JString (str "Unsupported file type"))]) |}.

(** A response that is not OK and whose body is the JSON text [null]. *)
Definition null_failure : Api.Response jsval :=
  {| Api.ok := false; Api.text := str "null"; Api.json := Return JNull |}.

(** A [FileUpload] with a file picked and its upload in flight. *)
Definition uploading : FileUpload.Effects :=
  {| FileUpload.current :=
       {| FileUpload.file := Some resume_file;
          FileUpload.status := FileUpload.uploading;
          FileUpload.message := JString [];
          FileUpload.isDragging := false |};
     FileUpload.called := [] |}.

Definition an_analysis : Api.MatchAnalysis :=
  {| Api.match_score := JNumber (number_of_Z 72);
     Api.strengths := [str "Python"; str "Team lead"];
     Api.gaps := [str "Kubernetes"];
     Api.key_insights := [str "Strong backend profile"];
     Api.skill_overlap := [str "python"; str "sql"];
     Api.missing_skills := [str "kubernetes"] |}.

(** A list of strings as a JSON array *)
Definition quoted_list (l : list string) : jsstring :=
  str "[" ++ join (str ",") (map quoted l) ++ str "]".

Definition analysis_ok : Api.Response Api.AnalysisResponse.t :=
  {| Api.ok := true;
     Api.text :=
       str "{" ++ quoted "success" ++ str ":true," ++ quoted "analysis"
       ++ str ":{" ++ quoted "match_score" ++ str ":72,"
       ++ quoted "strengths" ++ str ":"
       ++ quoted_list ["Python"; "Team lead"]%string ++ str ","
       ++ quoted "gaps" ++ str ":" ++ quoted_list ["Kubernetes"]%string
       ++ str "," ++ quoted "key_insights" ++ str ":"
       ++ quoted_list ["Strong backend profile"]%string ++ str ","
       ++ quoted "skill_overlap" ++ str ":"
       ++ quoted_list ["python"; "sql"]%string ++ str ","
       ++ quoted "missing_skills" ++ str ":"
       ++ quoted_list ["kubernetes"]%string ++ str "}}";
     Api.json := Return {| Api.AnalysisResponse.success := true;
                           Api.AnalysisResponse.analysis := Some an_analysis;
                           Api.AnalysisResponse.error := None |} |}.

Definition analysis_failed : Api.Response Api.AnalysisResponse.t :=
  {| Api.ok := true;
     Api.text := str "{" ++ quoted "success" ++ str ":false,"
                 ++ quoted "error" ++ str ":" ++ quoted "Analysis failed"
                 ++ str "}";
     Api.json := Return {| Api.AnalysisResponse.success := false;
                           Api.AnalysisResponse.analysis := None;
                           Api.AnalysisResponse.error :=
                             Some (str "Analysis failed") |} |}.

(** ** Sessions *)

(** Both documents are picked and uploaded. *)
Definition both_uploaded : list App.event :=
  [ App.Upload App.Resume (FileUpload.Change (Some resume_file));
    App.Upload App.Resume FileUpload.ClickUpload;
    App.Upload App.Resume (FileUpload.Settled (Return (upload_ok "cv.txt")));
    App.Upload App.JD (FileUpload.Change (Some jd_file));
    App.Upload App.JD FileUpload.ClickUpload;
    App.Upload App.JD (FileUpload.Settled (Return (upload_ok "role.txt"))) ].

(** The analysis is run twice; the first run succeeds and the second
    fails. *)
Definition rerun_fails : list App.event :=
  both_uploaded
  ++ [ App.ClickRunAnalysis; App.AnalysisSettled (Return analysis_ok);
       App.ClickRunAnalysis; App.AnalysisSettled (Return analysis_failed) ].


(** A health check that found no backend, then a click. *)
Definition backend_down : list App.event :=
  [ App.HealthSettled (Throw (Exn TypeError (str "Failed to fetch")));
    App.ClickRunAnalysis ].


(** A response that is not OK and whose body is not JSON, as a gateway
    gives when the backend is down; parsing it fails with V8's
    [SyntaxError]. *)
Definition bad_gateway (A : Type) : Api.Response A :=
  {| Api.ok := false;
     Api.text := str "Bad Gateway";
     Api.json := Throw (Exn SyntaxError
                          (str "Unexpected token 'B', " ++ quoted "Bad Gateway"
                           ++ str " is not valid JSON")) |}.

(** A response that is not OK and whose body is a JSON answer. *)
Definition answered_with_error_status : Api.Response Api.ChatResponse.t :=
  {| Api.ok := false;
     Api.text := str "{" ++ quoted "success" ++ str ":true,"
                 ++ quoted "answer" ++ str ":" ++ quoted "PostgreSQL"
                 ++ str "}";
     Api.json := Return {| Api.ChatResponse.success := true;
                           Api.ChatResponse.answer := str "PostgreSQL";
                           Api.ChatResponse.error := None |} |}.

(** A chat component holding the text of a question. *)
Definition asking : ChatInterface.State :=
  ChatInterface.setInput (str "  Which databases has she used? ")
    ChatInterface.initial.

Definition chat_failed : Api.Response Api.ChatResponse.t :=
  {| Api.ok := true;
     Api.text := str "{" ++ quoted "success" ++ str ":false,"
                 ++ quoted "answer" ++ str ":" ++ quoted EmptyString ++ str ","
                 ++ quoted "error" ++ str ":" ++ quoted "No resume uploaded"
                 ++ str "}";
     Api.json := Return {| Api.ChatResponse.success := false;
                           Api.ChatResponse.answer := [];
                           Api.ChatResponse.error :=
                             Some (str "No resume uploaded") |} |}.

End Samples.

(* ================================================================== *)
(** * Properties *)
(* ================================================================== *)

Import JS.

(** ** The displayed score *)

Section Score.
Context {E : Engine}.

Lemma clamp_code_numeric (x : number) :
  is_nan x = false ->
  Math_max [pos_zero; Math_min [hundred; MatchAnalysis.num_or x pos_zero]]
  = Math_max [pos_zero; Math_min [hundred; x]].
Proof.
  destruct x as [s | s | | s m e]; try discriminate; intros _;
    try destruct s; reflexivity.
Qed.

Lemma finite_vs_hundred (m : positive) (e : Z) :
  SFcompare hundred (S754_finite false m e)
  = option_map CompOpp (SFcompare (S754_finite false m e) hundred).
Proof.
  unfold hundred. cbv beta iota delta [SFcompare option_map].
  rewrite (Z.compare_antisym e).
  rewrite <- (Pos.compare_cont_antisym m _ Eq).
  generalize (Pos.compare_cont Eq m 7036874417766400); intros c.
  destruct (Z.compare e (-46)); reflexivity.
Qed.

Lemma Math_min_hundred_finite (s : bool) (m : positive) (e : Z) :
  Math_min [hundred; S754_finite s m e]
  = if SFltb (S754_finite s m e) hundred then S754_finite s m e else hundred.
Proof. reflexivity. Qed.

Lemma Math_max_zero (y : number) :
  is_nan y = false -> is_neg_zero y = false ->
  Math_max [pos_zero; y] = if SFltb pos_zero y then y else pos_zero.
Proof.
  destruct y as [s | s | | s m e]; try discriminate; intros _ H;
   try destruct s; try discriminate; reflexivity.
Qed.

Lemma clamp_code_spec (x : number) :
  is_nan x = false ->
  Math_max [pos_zero; Math_min [hundred; x]] = Spec.clamp_0_100 x.
Proof.
  destruct x as [s | s | | s m e]; try discriminate; intros _;
    try (destruct s; reflexivity).
  rewrite Math_min_hundred_finite.
  destruct s; [reflexivity|].
  unfold Spec.clamp_0_100, SFleb, SFltb.
  rewrite finite_vs_hundred.
  assert (C : SFcompare (S754_finite false m e) hundred <> None)
    by (unfold hundred; cbv beta iota delta [SFcompare]; discriminate).
  revert C.
  generalize (SFcompare (S754_finite false m e) hundred); intros c C.
  destruct c as [[]|]; [reflexivity .. | now elim C].
Qed.

Lemma clamp_spec_within (x : number) :
  is_nan x = false -> Spec.within_0_100 (Spec.clamp_0_100 x).
Proof.
  destruct x as [s | s | | s m e]; try discriminate; intros _;
    try (destruct s; split; reflexivity).
  destruct s; [split; reflexivity|].
  unfold Spec.within_0_100, Spec.clamp_0_100, SFleb.
  rewrite finite_vs_hundred.
  change (SFcompare (S754_finite false m e) pos_zero) with (Some Gt).
  destruct (SFcompare (S754_finite false m e) hundred) as [[]|] eqn:C;
    cbv [option_map CompOpp]; cbv iota;
    try (split; [reflexivity | first [reflexivity | rewrite C; reflexivity]]).
  unfold hundred in C; cbv beta iota delta [SFcompare] in C; discriminate C.
Qed.

(** C1.  For every MatchAnalysis value handed to the display component, the
    score it renders (the text before the percent sign, and the ring) is
    [match_score] clamped to the interval [0,100], computed as
    [max(0, min(100, Number(match_score)))]; for every [match_score] that
    is NaN or that [Number()] cannot convert, the rendered score is 0; in
    every case the rendered score lies within [0,100]. *)
Theorem rendered_score_is_clamped_match_score (data : Api.MatchAnalysis) :
  let x := ToNumber (Api.match_score data) in
  let shown := MatchAnalysis.score_value (MatchAnalysis.render data) in
  shown = (if Spec.non_numeric (Api.match_score data) then pos_zero
           else Math_max [pos_zero; Math_min [hundred; x]])
  /\ shown = (if Spec.non_numeric (Api.match_score data) then pos_zero
              else Spec.clamp_0_100 x)
  /\ MatchAnalysis.score_ring_p (MatchAnalysis.render data) = shown
  /\ Spec.within_0_100 shown.
Proof.
  cbv zeta. unfold Spec.non_numeric.
  change (MatchAnalysis.score_value (MatchAnalysis.render data))
    with (MatchAnalysis.score data).
  change (MatchAnalysis.score_ring_p (MatchAnalysis.render data))
    with (MatchAnalysis.score data).
  unfold MatchAnalysis.score.
  destruct (is_nan (ToNumber (Api.match_score data))) eqn:N.
  - destruct (ToNumber (Api.match_score data)); try discriminate.
    repeat split; reflexivity.
  - rewrite (clamp_code_numeric _ N), (clamp_code_spec _ N).
    repeat split; try reflexivity; apply (clamp_spec_within _ N).
Qed.

End Score.

(** ** ChatInterface *)

Section Chat.
Import ChatInterface.

Lemma trimStart_white (s : jsstring) :
  forallb is_white s = true -> trimStart s = [].
Proof.
  induction s as [|c r IH]; simpl; [reflexivity|].
  intros H; apply andb_true_iff in H as [Hc Hr].
  rewrite Hc; auto.
Qed.

Lemma trim_white (s : jsstring) : forallb is_white s = true -> trim s = [].
Proof.
  intros H; unfold trim, trimEnd; rewrite (trimStart_white _ H); reflexivity.
Qed.

(** The guard of [handleSubmit]. *)
Lemma handleSubmit_sends (s s1 : State) call :
  handleSubmit s = (s1, Some call) ->
  trim (input s) <> [] /\ loading s = false
  /\ call = Api.chat (trim (input s)) (messages s)
  /\ s1 = {| messages := messages s
                         ++ [{| Api.role := Api.user;
                                Api.content := trim (input s) |}];
             input := []; loading := true; error := None |}.
Proof.
  unfold handleSubmit.
  destruct (trim (input s)) as [|c q] eqn:Q; simpl; [discriminate|].
  destruct (loading s); simpl; [discriminate|].
  intros H; injection H as <- <-.
  repeat split; discriminate.
Qed.

Lemma handleSubmit_returns (s : State) :
  trim (input s) = [] \/ loading s = true -> handleSubmit s = (s, None).
Proof.
  unfold handleSubmit; intros [H | H]; rewrite H; simpl;
    [reflexivity | now rewrite orb_true_r].
Qed.

Lemma str_or_nonempty (e : option jsstring) (d : jsstring) :
  d <> [] -> str_or e d <> [].
Proof. destruct e as [[|c r]|]; simpl; auto; discriminate. Qed.

(** C2.  For every chat submission that is sent, once the request has
    settled: if the response has success false, or the request threw, the
    message list has gained exactly the one user message, no assistant
    message, and an error string is set; an assistant message (the answer)
    follows the user message exactly when the response has success true. *)
Theorem failed_chat_appends_no_assistant_message
  (s s1 : State) call (fetched : result (Api.Response Api.ChatResponse.t)) :
  handleSubmit s = (s1, Some call) ->
  let userMsg := {| Api.role := Api.user; Api.content := trim (input s) |} in
  let s2 := handleSubmit_settled (Api.settle call fetched) s1 in
  match Api.settle call fetched with
  | Return res =>
      if Api.ChatResponse.success res
      then messages s2
             = messages s
               ++ [userMsg; {| Api.role := Api.assistant;
                               Api.content := Api.ChatResponse.answer res |}]
           /\ error s2 = None
      else messages s2 = messages s ++ [userMsg]
           /\ error s2 = Some (str_or (Api.ChatResponse.error res)
                                 (str "Failed to get response"))
           /\ str_or (Api.ChatResponse.error res)
                (str "Failed to get response") <> []
  | Throw _ =>
      messages s2 = messages s ++ [userMsg]
      /\ error s2 = Some (str "Failed to send message")
  end.
Proof.
  intros H; apply handleSubmit_sends in H as (_ & _ & _ & ->).
  cbv zeta.
  destruct (Api.settle call fetched) as [res | e]; simpl.
  - destruct (Api.ChatResponse.success res); simpl.
    + rewrite <- app_assoc; split; reflexivity.
    + repeat split. apply str_or_nonempty; discriminate.
  - split; reflexivity.
Qed.

Lemma settled_messages (r : result Api.ChatResponse.t) (s : State) :
  messages (handleSubmit_settled r s) = messages s ++ Spec.reply r
  /\ loading (handleSubmit_settled r s) = false
  /\ input (handleSubmit_settled r s) = input s.
Proof.
  destruct r as [res | e]; simpl.
  - destruct (Api.ChatResponse.success res); simpl;
      rewrite ?app_nil_r; repeat split.
  - rewrite app_nil_r; repeat split.
Qed.

(** C5.  Every chat request a submission sends has a body with exactly the
    two fields [question] and [history]: the question is the trimmed input,
    and the history is the message list the component held before this
    submission, so the message of the question being asked is added to the
    component's list and not to the history sent.  The conversation is
    carried by the component alone: the history of the next request is the
    previous history followed by the previous question and, when its
    response had success true, the answer. *)
Theorem chat_request_carries_question_and_prior_history
  (s s1 : State) call :
  handleSubmit s = (s1, Some call) ->
  let q := trim (input s) in
  let userMsg := {| Api.role := Api.user; Api.content := q |} in
  Api.body (Api.request call)
  = Api.Json (JObject
       [(str "question", JString q);
        (str "history", JArray (map Api.ChatMessage_json (messages s)))])
  /\ messages s1 = messages s ++ [userMsg]
  /\ forall fetched v s3 call',
       handleSubmit
         (setInput v (handleSubmit_settled (Api.settle call fetched) s1))
       = (s3, Some call') ->
       Api.body (Api.request call')
       = Api.Json (Api.ChatRequest_json
            {| Api.question := trim v;
               Api.history :=
                 messages s ++ userMsg :: Spec.reply (Api.settle call fetched) |}).
Proof.
  intros H; apply handleSubmit_sends in H as (_ & _ & -> & ->).
  cbv zeta; repeat split.
  intros fetched v s3 call' H.
  apply handleSubmit_sends in H as (_ & _ & -> & _).
  cbn [input setInput messages].
  destruct (settled_messages
              (Api.settle (Api.chat (trim (input s)) (messages s)) fetched)
              {| messages := messages s
                   ++ [{| Api.role := Api.user;
                          Api.content := trim (input s) |}];
                 input := []; loading := true; error := None |})
    as (M & _ & _).
  rewrite M; cbn [messages]. rewrite <- app_assoc. reflexivity.
Qed.

End Chat.

(** ** ChatInterface: requests in flight *)

Section ChatInFlight.
Import ChatInterface.

Lemma step_Submit_ignored (c : Running) :
  trim (input (state c)) = [] \/ loading (state c) = true ->
  step c Submit = (c, []).
Proof.
  intros H; unfold step; rewrite (handleSubmit_returns _ H).
  destruct c; reflexivity.
Qed.

(** What each event does to [loading], to the calls in flight and to the
    requests sent. *)
Lemma step_cases (c : Running) (e : event) :
  (loading (state (fst (step c e))) = loading (state c)
   /\ inflight (fst (step c e)) = inflight c
   /\ snd (step c e) = [])
  \/ (e = Submit /\ loading (state c) = false
      /\ loading (state (fst (step c e))) = true
      /\ (exists call, inflight (fst (step c e)) = inflight c ++ [call])
      /\ snd (step c e) <> [])
  \/ (exists fetched call, e = Settled fetched
      /\ inflight c = call :: inflight (fst (step c e))
      /\ loading (state (fst (step c e))) = false
      /\ snd (step c e) = []).
Proof.
  destruct c as [s fl]; destruct e as [v | i | | fetched]; cbn [step state].
  - left. cbn [render input_disabled].
    destruct (loading s) eqn:L; cbn; rewrite ?L; repeat split.
  - left. cbn [render chips].
    destruct (List.length (messages s) =? 0); [|repeat split].
    destruct (loading s) eqn:L; cbv iota;
      [|destruct (nth_error suggestions i) as [t|]];
      cbn; rewrite ?L; repeat split.
  - destruct (handleSubmit s) as [s' [call|]] eqn:H.
    + right; left. apply handleSubmit_sends in H as (_ & L & _ & ->).
      cbn. repeat split; [exact L | now exists call | discriminate].
    + left. unfold handleSubmit in H.
      destruct (is_empty (trim (input s)) || loading s); [|discriminate].
      injection H as <-. repeat split.
  - cbn [inflight]. destruct fl as [|call rest].
    + left; repeat split.
    + right; right. exists fetched, call. cbn [fst snd state inflight].
      destruct (settled_messages (Api.settle call fetched) s) as (_ & -> & _).
      repeat split.
Qed.

Lemma in_step_step (c : Running) (e : event) :
  Spec.one_while_loading c -> Spec.one_while_loading (fst (step c e)).
Proof.
  unfold Spec.one_while_loading; intros I.
  destruct (step_cases c e)
    as [(L & F & _) | [(_ & L & L' & (call & F) & _) | (f & call & _ & F & L' & _)]].
  - now rewrite L, F.
  - rewrite L', F, length_app, I, L; reflexivity.
  - rewrite L'. rewrite F in I. cbn in I.
    destruct (loading (state c)); [now injection I | discriminate].
Qed.

Lemma in_step_run (evs : list event) (c : Running) :
  Spec.one_while_loading c -> Spec.one_while_loading (fst (run c evs)).
Proof.
  revert c; induction evs as [|e evs IH]; intros c I; [exact I|].
  cbn [run]. pose proof (in_step_step e I) as I1.
  destruct (step c e) as [c1 sent1]. cbn [fst] in I1. specialize (IH _ I1).
  destruct (run c1 evs); exact IH.
Qed.

(** C9.  In every state the component reaches, at most one chat request
    is in flight, and one is in flight exactly while [loading] is true.
    While loading, the submit handler returns without sending and leaves
    the state as it is, and the text input and the send button are
    disabled.  A question that is empty after trimming, as every
    whitespace-only input is, is not sent either.  An event that sends a
    request finds [loading] false and leaves it true, and [loading] goes
    from true to false only on the event that settles the request. *)
Theorem at_most_one_chat_request_in_flight (evs : list event) (e : event) :
  let c := fst (run start evs) in
  let c' := fst (step c e) in
  let sent := snd (step c e) in
  List.length (inflight c) <= 1
  /\ (List.length (inflight c) = 1 <-> loading (state c) = true)
  /\ (loading (state c) = true ->
      step c Submit = (c, [])
      /\ input_disabled (render (state c)) = true
      /\ send_disabled (render (state c)) = true)
  /\ (trim (input (state c)) = [] -> step c Submit = (c, []))
  /\ (forallb is_white (input (state c)) = true -> step c Submit = (c, []))
  /\ (sent <> [] ->
      e = Submit /\ loading (state c) = false /\ loading (state c') = true
      /\ List.length (inflight c') = 1)
  /\ (loading (state c) = true -> loading (state c') = false ->
      exists fetched, e = Settled fetched /\ inflight c' = []).
Proof.
  cbv zeta.
  assert (I : Spec.one_while_loading (fst (run start evs)))
    by (apply in_step_run; reflexivity).
  pose proof (in_step_step e I) as I'.
  set (c := fst (run start evs)) in *.
  unfold Spec.one_while_loading in I, I'.
  split; [rewrite I; destruct (loading (state c)); lia|].
  split; [rewrite I; destruct (loading (state c)); split; congruence|].
  split.
  { intros L; split; [apply step_Submit_ignored; now right|].
    cbn; rewrite L; split; reflexivity. }
  split; [intros T; apply step_Submit_ignored; now left|].
  split; [intros W; apply step_Submit_ignored; left; now apply trim_white|].
  destruct (step_cases c e)
    as [(L & F & S) | [(-> & L & L' & _ & _) | (f & call & -> & F & L' & S)]].
  - split; [intros H; now elim H|].
    intros L1 L2; congruence.
  - split; [|intros L1; congruence].
    intros _. rewrite L' in I'. auto.
  - split; [intros H; now elim H|].
    intros L1 _. exists f; split; [reflexivity|].
    rewrite L1, F in I. revert I.
    destruct (inflight (fst (step c (Settled f)))); intros I;
      [reflexivity | simpl in I; discriminate I].
Qed.

End ChatInFlight.

(** ** ChatInterface: a submission that fails, and the one after it *)

Section ChatExamples.
Import ChatInterface.

Lemma failed_chat_example :
  let s1 := fst (handleSubmit Samples.asking) in
  let call := Api.chat (str "Which databases has she used?") [] in
  let s2 := handleSubmit_settled
              (Api.settle call (Return Samples.chat_failed)) s1 in
  messages s2 = [{| Api.role := Api.user;
                    Api.content := str "Which databases has she used?" |}]
  /\ error s2 = Some (str "No resume uploaded").
Proof.
  pose proof (failed_chat_appends_no_assistant_message
                Samples.asking (Return Samples.chat_failed) eq_refl) as H.
  cbv zeta in H. destruct H as (M & Err & _).
  split; [exact M | exact Err].
Defined.

Lemma next_chat_request_example :
  let call := Api.chat (str "Which databases has she used?") [] in
  let s2 := handleSubmit_settled
              (Api.settle call (Return Samples.chat_failed))
              (fst (handleSubmit Samples.asking)) in
  Api.body (Api.request call)
  = Api.Json (JObject
       [(str "question", JString (str "Which databases has she used?"));
        (str "history", JArray [])])
  /\ option_map (fun c => Api.body (Api.request c))
       (snd (handleSubmit (setInput (str "And which clouds?") s2)))
     = Some (Api.Json (Api.ChatRequest_json
          {| Api.question := str "And which clouds?";
             Api.history :=
               [{| Api.role := Api.user;
                   Api.content := str "Which databases has she used?" |}] |})).
Proof.
  pose proof (chat_request_carries_question_and_prior_history
                Samples.asking eq_refl) as H.
  cbv zeta in H. destruct H as (B & _ & N).
  split; [exact B|].
  exact (f_equal Some (N (Return Samples.chat_failed) (str "And which clouds?")
                         _ _ eq_refl)).
Defined.

End ChatExamples.

(** ** api.ts: what the four calls settle to *)

Section ApiClient.
Import Api.



End ApiClient.


(** ** The history handed to generation *)

Section History.
Import ContextAssembler.

Lemma truncate_history_length (h : list Api.ChatMessage) :
  List.length (truncate_history h) = Nat.min (List.length h) HISTORY_WINDOW.
Proof. unfold truncate_history; rewrite length_skipn; lia. Qed.

Lemma truncate_history_suffix (h : list Api.ChatMessage) :
  h = firstn (List.length h - HISTORY_WINDOW) h ++ truncate_history h.
Proof. unfold truncate_history; now rewrite firstn_skipn. Qed.

(** C3.  For every conversation history, the history of the prompt payload
    has at most 6 messages; it is the end of the given history, in the
    order of the given history, so its first message is the oldest one
    kept and what is left out are the messages before it; a history of at
    most 6 messages is kept whole, and of a longer one exactly 6 messages
    are kept. *)
Theorem history_is_truncated_to_last_six
  (directive : jsstring) (chunks : list Chunk) (q : jsstring)
  (h : list Api.ChatMessage) :
  let kept := history (assemble directive chunks q h) in
  List.length kept <= 6
  /\ List.length kept = Nat.min (List.length h) 6
  /\ (exists older, h = older ++ kept
                    /\ List.length older = List.length h - 6)
  /\ (forall i, i < List.length kept ->
        nth_error kept i = nth_error h (List.length h - List.length kept + i))
  /\ (List.length h <= 6 -> kept = h).
Proof.
  cbv zeta. cbn [history assemble].
  pose proof (truncate_history_length h) as L.
  pose proof (truncate_history_suffix h) as S.
  unfold HISTORY_WINDOW in *.
  split; [lia|]. split; [exact L|].
  split.
  { exists (firstn (List.length h - 6) h); split; [exact S|].
    rewrite length_firstn; lia. }
  split.
  { intros i Hi. rewrite S at 2.
    rewrite nth_error_app2 by (rewrite length_firstn; lia).
    f_equal. rewrite length_firstn. lia. }
  intros Hl. unfold truncate_history, HISTORY_WINDOW.
  replace (List.length h - 6) with 0 by lia. reflexivity.
Qed.

End History.

(** ** FileUpload: what a settled upload does *)

Section Upload.
Import FileUpload.
Context {E : Engine}.

Lemma get_field (data : jsval) (k : jsstring) :
  Spec.nullish data = false -> get data k = Return (Spec.field data k).
Proof. destruct data; simpl; intros H; try discriminate; reflexivity. Qed.

Lemma get_nullish (data : jsval) (k : jsstring) :
  Spec.nullish data = true
  -> get data k = Throw (Exn TypeError (NullPropertyMessage data k)).
Proof. destruct data; simpl; intros H; try discriminate; reflexivity. Qed.

Lemma get_opt_field (v : jsval) (k : jsstring) :
  get_opt v k = Return (Spec.field v k).
Proof. destruct v; reflexivity. Qed.

Lemma failure_text_detail (data : jsval) :
  Spec.nullish data = false
  -> failure_text data
     = Return (Spec.detail_message (Spec.field data (str "detail"))).
Proof.
  intros H; unfold failure_text, Spec.detail_message.
  rewrite get_field by exact H. cbn [bind Monad_result result_bind].
  destruct (Spec.field data (str "detail")) as [| | b | x | s | items | props];
    try reflexivity.
  destruct items as [|item rest]; [reflexivity|].
  cbn [first]. rewrite get_opt_field. reflexivity.
Qed.

Lemma failure_text_nullish (data : jsval) :
  Spec.nullish data = true
  -> failure_text data
     = Throw (Exn TypeError (NullPropertyMessage data (str "detail"))).
Proof. intros H; unfold failure_text; now rewrite get_nullish by exact H. Qed.

(** [handleUpload] from the settled fetch on, case by case. *)
Lemma handleUpload_settled_cases
  (fetched : result (Api.Response jsval)) (w : Effects) :
  handleUpload_settled fetched w
  = (match fetched with
     | Throw e => Spec.upload_failed (exn_message e) w
     | Return res =>
         let data := try_catch (Api.json res) (fun _ => JObject []) in
         if Api.ok res
         then if Spec.nullish data
              then Spec.upload_failed
                     (NullPropertyMessage data (str "message")) w
              else Spec.upload_done data w
         else if Spec.nullish data
              then Spec.upload_failed
                     (NullPropertyMessage data (str "detail")) w
              else Spec.upload_failed
                     (Spec.detail_message (Spec.field data (str "detail"))) w
     end, Return tt).
Proof.
  destruct fetched as [res | e]; [|reflexivity].
  cbv zeta. unfold handleUpload_settled.
  set (data := try_catch (Api.json res) (fun _ => JObject [])).
  destruct (Api.ok res) eqn:OK; destruct (Spec.nullish data) eqn:N.
  - unfold catch, await, update, throw, onSuccess.
    cbn [bind ret Monad_Handler]. rewrite OK. cbn [negb]. cbv beta iota.
    rewrite get_nullish by exact N. reflexivity.
  - unfold catch, await, update, throw, onSuccess.
    cbn [bind ret Monad_Handler]. rewrite OK. cbn [negb]. cbv beta iota.
    rewrite !get_field by exact N. reflexivity.
  - unfold catch, await, update, throw, onSuccess.
    cbn [bind ret Monad_Handler]. rewrite OK. cbn [negb]. cbv beta iota.
    rewrite failure_text_nullish by exact N. reflexivity.
  - unfold catch, await, update, throw, onSuccess.
    cbn [bind ret Monad_Handler]. rewrite OK. cbn [negb]. cbv beta iota.
    rewrite failure_text_detail by exact N. reflexivity.
Qed.

(** The three cases of the message derived from [detail]. *)
Lemma detail_message_cases (detail : jsval) :
  match detail with
  | JString (c :: s) => Spec.detail_message detail = c :: s
  | JArray (JObject props :: _) =>
      match lookup (str "msg") props with
      | JString (c :: s) => Spec.detail_message detail = c :: s
      | JString [] | JUndefined | JNull | JBool false =>
          Spec.detail_message detail = str "Upload failed"
      | msg => Spec.detail_message detail
               = ToString (or_else msg (JString (str "Upload failed")))
      end
  | _ => Spec.detail_message detail = str "Upload failed"
  end.
Proof.
  destruct detail as [| | b | x | s | items | props]; try reflexivity.
  - destruct s; reflexivity.
  - destruct items as [|item rest]; [reflexivity|].
    destruct item as [| | b | x | s | items' | props]; try reflexivity.
    unfold Spec.detail_message. cbn [Spec.field].
    destruct (lookup (str "msg") props) as [| | b | x | s | items' | props'];
      try reflexivity.
    + destruct b; reflexivity.
    + destruct s; reflexivity.
Qed.


End Upload.

(** C8.  The claim fails at a response that is not OK and whose body is
    the JSON text [null]: the component reads [detail] from [null] with no
    guard, the read throws inside the [try], and the message shown is the
    text of that [TypeError], where the message derived from the [detail]
    field, as for every other body without one, is "Upload failed".  The
    status is error all the same. *)
Lemma null_body_failure_reports_type_error :
  let w' := fst (FileUpload.handleUpload_settled (E := Samples.engine)
                   (Return Samples.null_failure) Samples.uploading) in
  let sibling := fst (FileUpload.handleUpload_settled (E := Samples.engine)
                        (Return (Samples.bad_gateway jsval))
                        Samples.uploading) in
  Api.ok Samples.null_failure = false
  /\ FileUpload.status (FileUpload.current w') = FileUpload.error
  /\ FileUpload.called w' = []
  /\ FileUpload.message (FileUpload.current w')
     = JString (str "Cannot read properties of null (reading 'detail')")
  /\ Spec.detail_message (E := Samples.engine)
       (Spec.field JNull (str "detail")) = str "Upload failed"
  /\ FileUpload.message (FileUpload.current w')
     <> JString (Spec.detail_message (E := Samples.engine)
                   (Spec.field JNull (str "detail")))
  /\ FileUpload.message (FileUpload.current sibling)
     = JString (str "Upload failed").
Proof.
  cbv zeta. repeat split. vm_compute. discriminate.
Qed.

(** ** App: uploads *)

Section Uploads.
Context {E : Engine}.

(** [onSuccess] is called by the event that settles a fetch with a response
    that is OK and whose body is not [null], and by no other event. *)
Lemma FileUpload_step_onSuccess
  (props : FileUpload.Props) (c : FileUpload.Running) (e : FileUpload.event) :
  snd (FileUpload.step props c e) = []
  \/ exists res,
       e = FileUpload.Settled (Return res) /\ Api.ok res = true
       /\ FileUpload.inflight c <> 0
       /\ Spec.nullish (try_catch (Api.json res) (fun _ => JObject [])) = false
       /\ snd (FileUpload.step props c e)
          = [Spec.info_of (try_catch (Api.json res) (fun _ => JObject []))].
Proof.
  destruct e as [f | over | f | | | fetched]; cbn [FileUpload.step];
    try (left; reflexivity).
  - destruct (FileUpload.clear_disabled _); left; reflexivity.
  - destruct (FileUpload.upload_disabled _); [left; reflexivity|].
    destruct (FileUpload.handleUpload props (FileUpload.state c)) as [s' [r|]];
      left; reflexivity.
  - destruct (FileUpload.inflight c) as [|n] eqn:I; [left; reflexivity|].
    rewrite handleUpload_settled_cases.
    destruct fetched as [res | ex]; [|left; reflexivity].
    cbv zeta.
    destruct (Api.ok res) eqn:OK;
      destruct (Spec.nullish (try_catch (Api.json res) (fun _ => JObject [])))
        eqn:N; try (left; reflexivity).
    right. exists res. repeat split; try assumption. discriminate.
Qed.


Import App.

(** What an event of the resume's [FileUpload] does to the state of
    [App]: nothing, or one call of [handleResumeUpload]. *)
Lemma step_Upload_Resume (p : Page) (e' : FileUpload.event) :
  let p' := fst (step p (Upload Resume e')) in
  jd p' = jd p /\ chat p' = chat p
  /\ analysis_inflight p' = analysis_inflight p
  /\ (app p' = app p
      \/ exists res,
           e' = FileUpload.Settled (Return res) /\ Api.ok res = true
           /\ app p'
              = handleResumeUpload
                  (Spec.info_of
                     (try_catch (Api.json res) (fun _ => JObject [])))
                  (app p)).
Proof.
  cbv zeta. cbn [step].
  destruct (FileUpload_step_onSuccess resume_props (resume p) e')
    as [H | (res & -> & OK & _ & _ & H)];
    destruct (FileUpload.step resume_props (resume p) _) as [[c reqs] infos];
    cbn [snd] in H; subst infos; cbn; repeat split; auto.
  right. exists res. auto.
Qed.

Lemma step_Upload_JD (p : Page) (e' : FileUpload.event) :
  let p' := fst (step p (Upload JD e')) in
  resume p' = resume p /\ chat p' = chat p
  /\ analysis_inflight p' = analysis_inflight p
  /\ (app p' = app p
      \/ exists res,
           e' = FileUpload.Settled (Return res) /\ Api.ok res = true
           /\ app p'
              = handleJDUpload
                  (Spec.info_of
                     (try_catch (Api.json res) (fun _ => JObject [])))
                  (app p)).
Proof.
  cbv zeta. cbn [step].
  destruct (FileUpload_step_onSuccess jd_props (jd p) e')
    as [H | (res & -> & OK & _ & _ & H)];
    destruct (FileUpload.step jd_props (jd p) _) as [[c reqs] infos];
    cbn [snd] in H; subst infos; cbn; repeat split; auto.
  right. exists res. auto.
Qed.

Lemma loadAnalysis_settled_flags
  (fetched : result (Api.Response Api.AnalysisResponse.t)) (s : State) :
  resumeUploaded (loadAnalysis_settled fetched s) = resumeUploaded s
  /\ jdUploaded (loadAnalysis_settled fetched s) = jdUploaded s
  /\ resumeInfo (loadAnalysis_settled fetched s) = resumeInfo s
  /\ jdInfo (loadAnalysis_settled fetched s) = jdInfo s
  /\ loading (loadAnalysis_settled fetched s) = false.
Proof.
  destruct fetched as [res | e]; [|repeat split].
  unfold loadAnalysis_settled. cbn [bind Monad_result result_bind].
  destruct (Api.json res) as [data | e]; [|repeat split].
  cbn [bind Monad_result result_bind try_catch].
  destruct (Api.AnalysisResponse.success data);
    [destruct (Api.AnalysisResponse.analysis data)|]; repeat split.
Qed.

Lemma check_settled_flags (fetched : result (Api.Response unit)) (s : State) :
  resumeUploaded (check_settled fetched s) = resumeUploaded s
  /\ jdUploaded (check_settled fetched s) = jdUploaded s
  /\ analysis (check_settled fetched s) = analysis s
  /\ analysisError (check_settled fetched s) = analysisError s
  /\ loading (check_settled fetched s) = loading s.
Proof. destruct fetched; repeat split. Qed.

(** An event changes an upload flag only by setting it, and only when it
    is an upload of that kind that succeeded. *)
Lemma step_flags (p : Page) (e : event) :
  let p' := fst (step p e) in
  (resumeUploaded (app p') = resumeUploaded (app p)
   \/ resumeUploaded (app p') = true /\ Spec.succeeded Resume e)
  /\ (jdUploaded (app p') = jdUploaded (app p)
      \/ jdUploaded (app p') = true /\ Spec.succeeded JD e).
Proof.
  cbv zeta. destruct e as [[|] e' | | fetched | e' | fetched].
  - destruct (step_Upload_Resume p e')
      as (_ & _ & _ & [-> | (res & -> & OK & ->)]); [auto|].
    split; [right; split; [reflexivity | now exists res] | left; reflexivity].
  - destruct (step_Upload_JD p e')
      as (_ & _ & _ & [-> | (res & -> & OK & ->)]); [auto|].
    split; [left; reflexivity | right; split; [reflexivity | now exists res]].
  - cbn [step].
    destruct (analysis_section _) as [|[|] ? ? ?]; cbn; auto.
  - cbn [step]. destruct (analysis_inflight p); cbn [fst app]; [auto|].
    destruct (loadAnalysis_settled_flags fetched (app p)) as (-> & -> & _).
    auto.
  - cbn [step]. destruct (chat_section _); [auto|].
    destruct (ChatInterface.step (chat p) e'); cbn; auto.
  - cbn [step fst app].
    destruct (check_settled_flags fetched (app p)) as (-> & -> & _). auto.
Qed.

(** A flag that is set was set by an upload of its kind that succeeded. *)
Lemma run_flags (evs : list event) (p : Page) :
  let p' := fst (run p evs) in
  (resumeUploaded (app p') = true ->
   resumeUploaded (app p) = true
   \/ exists e, In e evs /\ Spec.succeeded Resume e)
  /\ (jdUploaded (app p') = true ->
      jdUploaded (app p) = true
      \/ exists e, In e evs /\ Spec.succeeded JD e).
Proof.
  cbv zeta. revert p; induction evs as [|e evs IH]; intros p; [cbn; auto|].
  cbn [run]. pose proof (step_flags p e) as F. cbv zeta in F.
  destruct (step p e) as [p1 out]. cbn [fst] in F.
  specialize (IH p1). destruct (run p1 evs) as [p2 outs]. cbn [fst] in *.
  destruct IH as [IHr IHj], F as [Fr Fj]. split; intros H.
  - destruct (IHr H) as [H1 | (e0 & I & S)];
      [|right; exists e0; split; [now right | exact S]].
    destruct Fr as [Fr | [_ S]];
      [left; congruence | right; exists e; split; [now left | exact S]].
  - destruct (IHj H) as [H1 | (e0 & I & S)];
      [|right; exists e0; split; [now right | exact S]].
    destruct Fj as [Fj | [_ S]];
      [left; congruence | right; exists e; split; [now left | exact S]].
Qed.

Lemma reached_flags (evs : list event) :
  let p := fst (run start evs) in
  (resumeUploaded (app p) = true ->
   exists e, In e evs /\ Spec.succeeded Resume e)
  /\ (jdUploaded (app p) = true ->
      exists e, In e evs /\ Spec.succeeded JD e).
Proof.
  cbv zeta. destruct (run_flags evs start) as [R J].
  split; intros H; [destruct (R H) as [F|]|destruct (J H) as [F|]];
    try assumption; discriminate F.
Qed.

End Uploads.

(** ** App: chat, analysis and uploads *)

Section Page.
Context {E : Engine}.
Import App.

(** Only a chat event sends a chat request, and only where the chat
    component is rendered. *)
Lemma step_SentChat (p : Page) (e : event) (r : Api.Request) :
  In (SentChat r) (snd (step p e)) -> resumeUploaded (app p) = true.
Proof.
  destruct e as [[|] e' | | fetched | e' | fetched]; cbn [step].
  - destruct (FileUpload.step resume_props (resume p) e') as [[c reqs] infos].
    cbn [snd]. rewrite in_map_iff. now intros (x & H & _).
  - destruct (FileUpload.step jd_props (jd p) e') as [[c reqs] infos].
    cbn [snd]. rewrite in_map_iff. now intros (x & H & _).
  - destruct (analysis_section _) as [|[|] ? ? ?]; cbn;
      try tauto. now intros [H|[]].
  - destruct (analysis_inflight p); cbn; tauto.
  - cbn [render chat_section].
    destruct (resumeUploaded (app p)); [reflexivity|]. cbn. tauto.
  - cbn; tauto.
Qed.

(** C4.  In every state the page reaches, while [resumeUploaded] is false
    the chat section shows the hint and not the chat component, and no
    event sends a chat request.  Hence an event that sends a chat request
    finds [resumeUploaded] true, and before it there was an event that
    settled the upload of a resume with a response that was OK. *)
Theorem no_chat_request_before_resume_upload (evs : list event) (e : event) :
  let p := fst (run start evs) in
  (resumeUploaded (app p) = false ->
   chat_section (render (app p) (ChatInterface.state (chat p))) = ChatHint
   /\ forall r, ~ In (SentChat r) (snd (step p e)))
  /\ (forall r, In (SentChat r) (snd (step p e)) ->
      resumeUploaded (app p) = true
      /\ exists e0, In e0 evs /\ Spec.succeeded Resume e0).
Proof.
  cbv zeta. split.
  - intros H. split; [cbn; now rewrite H|].
    intros r I. apply step_SentChat in I. congruence.
  - intros r I. apply step_SentChat in I. split; [exact I|].
    now apply reached_flags.
Qed.

Lemma step_SentAnalysis (p : Page) (e : event) (r : Api.Request) :
  In (SentAnalysis r) (snd (step p e)) ->
  e = ClickRunAnalysis /\ canAnalyze (app p) = true /\ loading (app p) = false
  /\ r = Api.request Api.getAnalysis.
Proof.
  destruct e as [[|] e' | | fetched | e' | fetched]; cbn [step].
  - destruct (FileUpload.step resume_props (resume p) e') as [[c reqs] infos].
    cbn [snd]. rewrite in_map_iff. now intros (x & H & _).
  - destruct (FileUpload.step jd_props (jd p) e') as [[c reqs] infos].
    cbn [snd]. rewrite in_map_iff. now intros (x & H & _).
  - cbn [render analysis_section].
    destruct (canAnalyze (app p)); cbn [negb]; [|cbn; tauto].
    destruct (loading (app p)); cbn; [tauto|].
    intros [H|[]]. injection H as <-. repeat split.
  - destruct (analysis_inflight p); cbn; tauto.
  - destruct (chat_section _); [cbn; tauto|].
    destruct (ChatInterface.step (chat p) e') as [c reqs].
    cbn [snd]. rewrite in_map_iff. now intros (x & H & _).
  - cbn; tauto.
Qed.

(** C6.  An analysis request is sent only by the click on the run button,
    which is rendered only when [resumeUploaded] and [jdUploaded] are both
    true, that is after an upload of each kind was settled by a response
    that was OK.  For every analysis response, the analysis is installed
    when the body has [success] true and an analysis, and the error is left
    as it was.  Otherwise the displayed analysis is left as it was, absent
    when none was displayed, and the error becomes a string that is not
    empty: the [error] of the body, "Failed to load analysis" when that is
    absent or empty, and "Failed to fetch analysis" when the fetch or the
    parsing of the body failed; the page then shows that error. *)
Theorem analysis_needs_both_uploads_and_installs_on_success
  (evs : list event) (e : event) (s : State) (c : ChatInterface.State)
  (fetched : result (Api.Response Api.AnalysisResponse.t)) :
  let p := fst (run start evs) in
  let s' := loadAnalysis_settled fetched s in
  let failed text :=
    analysis s' = analysis s
    /\ (analysis s = None -> analysis s' = None)
    /\ analysisError s' = Some text /\ text <> []
    /\ (canAnalyze s = true ->
        analysis_section (render s' c)
        = AnalysisPanel false (quickStats s) (Some text)
            (option_map MatchAnalysis.render (analysis s))) in
  (forall r, In (SentAnalysis r) (snd (step p e)) ->
     e = ClickRunAnalysis
     /\ resumeUploaded (app p) = true /\ jdUploaded (app p) = true
     /\ (exists e1, In e1 evs /\ Spec.succeeded Resume e1)
     /\ (exists e2, In e2 evs /\ Spec.succeeded JD e2))
  /\ (canAnalyze (app p) = false ->
      analysis_section (render (app p) (ChatInterface.state (chat p)))
      = AnalysisHint)
  /\ match result_bind fetched (fun res => Api.json res) with
     | Return data =>
         match Api.AnalysisResponse.success data,
               Api.AnalysisResponse.analysis data with
         | true, Some a =>
             analysis s' = Some a /\ analysisError s' = analysisError s
         | _, _ =>
             failed (ChatInterface.str_or (Api.AnalysisResponse.error data)
                       (str "Failed to load analysis"))
         end
     | Throw _ => failed (str "Failed to fetch analysis")
     end.
Proof.
  cbv zeta. split.
  { intros r I. apply step_SentAnalysis in I as (-> & C & _ & _).
    unfold canAnalyze in C. apply andb_true_iff in C as [R J].
    destruct (reached_flags evs) as [HR HJ]. repeat split; auto. }
  split.
  { intros C. cbn. now rewrite C. }
  assert (Failed : forall text,
             text <> [] ->
             let s0 := setLoading false (setAnalysisError (Some text) s) in
             analysis s0 = analysis s
             /\ (analysis s = None -> analysis s0 = None)
             /\ analysisError s0 = Some text /\ text <> []
             /\ (canAnalyze s = true ->
                 analysis_section (render s0 c)
                 = AnalysisPanel false (quickStats s) (Some text)
                     (option_map MatchAnalysis.render (analysis s)))).
  { intros text T s0.
    split; [reflexivity|]. split; [intros H; exact H|].
    split; [reflexivity|]. split; [exact T|].
    intros C. unfold render. cbn [analysis_section].
    change (canAnalyze s0) with (canAnalyze s).
    rewrite C. destruct text; [now elim T | reflexivity]. }
  unfold loadAnalysis_settled.
  destruct fetched as [res | ex]; cbn [result_bind bind Monad_result].
  - destruct (Api.json res) as [data | ex];
      cbn [result_bind bind Monad_result try_catch].
    + assert (T : ChatInterface.str_or (Api.AnalysisResponse.error data)
                    (str "Failed to load analysis") <> [])
        by (apply str_or_nonempty; discriminate).
      destruct (Api.AnalysisResponse.success data);
        [destruct (Api.AnalysisResponse.analysis data) as [a|]|].
      * split; reflexivity.
      * exact (Failed _ T).
      * exact (Failed _ T).
    + apply Failed. discriminate.
  - apply Failed. discriminate.
Qed.





End Page.


(** C6, as it is written, fails when the analysis is run again after a
    run that succeeded: both documents are uploaded, the analysis is run
    and installed, it is run once more and the response has [success]
    false.  The page then shows the error and the analysis of the first
    run, which is not absent. *)
Lemma failed_rerun_keeps_displayed_analysis :
  let p := fst (App.run (E := Samples.engine) App.start Samples.rerun_fails) in
  Api.json Samples.analysis_failed
  = Return {| Api.AnalysisResponse.success := false;
              Api.AnalysisResponse.analysis := None;
              Api.AnalysisResponse.error := Some (str "Analysis failed") |}
  /\ App.analysis (App.app p) = Some Samples.an_analysis
  /\ App.analysisError (App.app p) = Some (str "Analysis failed")
  /\ App.analysis_section
       (App.render (E := Samples.engine) (App.app p)
          (ChatInterface.state (App.chat p)))
     = App.AnalysisPanel false
         (Some {| App.overlap := 2; App.missing := 1;
                  App.strengths := 2; App.gaps := 1 |})
         (Some (str "Analysis failed"))
         (Some (MatchAnalysis.render (E := Samples.engine)
                  Samples.an_analysis)).
Proof. cbv zeta. repeat split. Qed.

(** ** ChatInterface: the conversation over a session *)

Section Conversation.
Import ChatInterface.

(** The send button is disabled exactly when [handleSubmit] would return
    without sending; a submission that is not sent changes nothing, and one
    that is sent empties the input, clears the error and adds the trimmed
    question as a user message. *)
Theorem send_button_agrees_with_handleSubmit (s : State) :
  (send_disabled (render s) = true <-> snd (handleSubmit s) = None)
  /\ (snd (handleSubmit s) = None -> fst (handleSubmit s) = s)
  /\ (send_disabled (render s) = false ->
      handleSubmit s
      = ({| messages := messages s
                        ++ [{| Api.role := Api.user;
                               Api.content := trim (input s) |}];
            input := []; loading := true; error := None |},
         Some (Api.chat (trim (input s)) (messages s)))).
Proof.
  unfold handleSubmit. cbn [render send_disabled].
  rewrite (orb_comm (loading s)).
  destruct (is_empty (trim (input s)) || loading s); cbn.
  - repeat split; intros; discriminate.
  - repeat split; intros; discriminate.
Qed.

Lemma step_messages (c : Running) (e : event) :
  (messages (state (fst (step c e))) = messages (state c)
   /\ loading (state (fst (step c e))) = loading (state c)
   /\ snd (step c e) = [])
  \/ (e = Submit /\ loading (state c) = false
      /\ trim (input (state c)) <> []
      /\ loading (state (fst (step c e))) = true
      /\ messages (state (fst (step c e)))
         = messages (state c)
           ++ [{| Api.role := Api.user;
                  Api.content := trim (input (state c)) |}]
      /\ snd (step c e)
         = [Api.request (Api.chat (trim (input (state c)))
                           (messages (state c)))])
  \/ (exists fetched call rest,
        e = Settled fetched /\ inflight c = call :: rest
        /\ loading (state (fst (step c e))) = false
        /\ messages (state (fst (step c e)))
           = messages (state c) ++ Spec.reply (Api.settle call fetched)
        /\ snd (step c e) = []).
Proof.
  destruct c as [s fl]; destruct e as [v | i | | fetched]; cbn [step state].
  - left. destruct (input_disabled (render s)); repeat split.
  - left.
    destruct (chips (render s)) as [[? []]|];
      [|destruct (nth_error suggestions i)|]; repeat split.
  - destruct (handleSubmit s) as [s' [call|]] eqn:H.
    + right; left. apply handleSubmit_sends in H as (T & L & -> & ->).
      repeat split; assumption.
    + left. unfold handleSubmit in H.
      destruct (is_empty (trim (input s)) || loading s); [|discriminate].
      injection H as <-. repeat split.
  - cbn [inflight]. destruct fl as [|call rest]; [left; repeat split|].
    right; right. exists fetched, call, rest. cbn [fst snd state].
    destruct (settled_messages (Api.settle call fetched) s) as (-> & -> & _).
    repeat split.
Qed.






Lemma run_messages_grow (evs : list event) (c : Running) :
  exists l, messages (state (fst (run c evs))) = messages (state c) ++ l.
Proof.
  revert c; induction evs as [|e evs IH]; intros c;
    [exists []; now rewrite app_nil_r|].
  cbn [run]. pose proof (step_messages c e) as S.
  destruct (step c e) as [c1 sent1]. cbn [fst snd] in S.
  destruct (IH c1) as (l & M). destruct (run c1 evs) as [c2 sent2].
  cbn [fst] in *. rewrite M.
  destruct S as [(-> & _) | [(_ & _ & _ & _ & -> & _)
                            | (f & call & rest & _ & _ & _ & -> & _)]];
    rewrite <- ?app_assoc; eexists; reflexivity.
Qed.

(** Every request of a run carries a question that is not empty, and its
    history followed by that question is a prefix of the final list. *)
Lemma run_requests (evs : list event) (c : Running) (r : Api.Request) :
  In r (snd (run c evs)) ->
  exists q h rest,
    r = Api.request (Api.chat q h) /\ q <> []
    /\ messages (state (fst (run c evs)))
       = h ++ {| Api.role := Api.user; Api.content := q |} :: rest.
Proof.
  revert c; induction evs as [|e evs IH]; intros c; [intros []|].
  cbn [run]. pose proof (step_messages c e) as S.
  destruct (step c e) as [c1 sent1]. cbn [fst snd] in S.
  specialize (IH c1). destruct (run_messages_grow evs c1) as (l & G).
  destruct (run c1 evs) as [c2 sent2]. cbn [fst snd] in *.
  rewrite in_app_iff. intros [I | I]; [|exact (IH I)].
  destruct S as [(_ & _ & ->) | [(_ & _ & T & _ & M & ->)
                               | (f & call & rest & _ & _ & _ & _ & ->)]];
    try now elim I.
  destruct I as [<- | []].
  exists (trim (input (state c))), (messages (state c)), l.
  repeat split; [exact T|]. rewrite G, M, <- app_assoc. reflexivity.
Qed.

Lemma of_role_app (r : Api.Role) (l l' : list Api.ChatMessage) :
  Spec.of_role r (l ++ l') = Spec.of_role r l ++ Spec.of_role r l'.
Proof. apply filter_app. Qed.

(** The questions of a run are as many as its requests, and the answers,
    with the request that is pending, are no more than that. *)
Lemma run_counts (evs : list event) (c : Running) :
  Spec.one_while_loading c ->
  List.length (Spec.of_role Api.user (messages (state (fst (run c evs)))))
  = List.length (Spec.of_role Api.user (messages (state c)))
    + List.length (snd (run c evs))
  /\ List.length
       (Spec.of_role Api.assistant (messages (state (fst (run c evs)))))
     + List.length (inflight (fst (run c evs)))
     <= List.length (Spec.of_role Api.assistant (messages (state c)))
        + List.length (inflight c) + List.length (snd (run c evs)).
Proof.
  revert c; induction evs as [|e evs IH]; intros c I; [cbn; lia|].
  cbn [run]. pose proof (step_messages c e) as S.
  pose proof (in_step_step e I) as I1.
  destruct (step c e) as [c1 sent1]. cbn [fst snd] in S, I1.
  specialize (IH c1 I1). destruct (run c1 evs) as [c2 sent2].
  cbn [fst snd] in *. rewrite length_app.
  unfold Spec.one_while_loading in I, I1.
  destruct IH as [U A]. rewrite U. rewrite I1 in A. rewrite I.
  destruct S as [(M & L & ->) | [(_ & L & _ & L' & M & ->)
                               | (f & call & rest & _ & F & L' & M & ->)]];
    rewrite M in *; rewrite ?of_role_app, ?length_app in *.
  - rewrite L in A. cbn [List.length]. lia.
  - rewrite L' in A. rewrite L. cbn in *. lia.
  - rewrite L' in A. rewrite F in I.
    destruct (loading (state c)); [|discriminate I].
    assert (R : List.length
                  (Spec.of_role Api.user (Spec.reply (Api.settle call f))) = 0
                /\ List.length
                     (Spec.of_role Api.assistant
                        (Spec.reply (Api.settle call f))) <= 1).
    { unfold Spec.reply. destruct (Api.settle call f) as [res | ex];
        [destruct (Api.ChatResponse.success res)|]; cbn; lia. }
    cbn [List.length] in *. lia.
Qed.

(** Over every session of the chat component: the requests sent are as
    many as the questions in the message list; the answers, together with
    the pending request, are no more than the questions; and every request
    sent carries a question that is not empty and a history such that the
    history followed by the question is a prefix of the final message
    list. *)
Theorem requests_match_the_conversation (evs : list event) :
  let c := fst (run start evs) in
  let sent := snd (run start evs) in
  List.length sent
  = List.length (Spec.of_role Api.user (messages (state c)))
  /\ List.length (Spec.of_role Api.assistant (messages (state c)))
     + List.length (inflight c)
     <= List.length (Spec.of_role Api.user (messages (state c)))
  /\ (forall r, In r sent ->
      exists q h rest,
        r = Api.request (Api.chat q h) /\ q <> []
        /\ messages (state c)
           = h ++ {| Api.role := Api.user; Api.content := q |} :: rest).
Proof.
  cbv zeta.
  destruct (@run_counts evs start) as [U A]; [reflexivity|].
  cbn in U, A. split; [lia|]. split; [lia|].
  intros r. apply run_requests.
Qed.

End Conversation.

(** ** FileUpload over a session *)

Section UploadSession.
Import FileUpload.
Context {E : Engine}.
Variable props : Props.

(** For a response that is OK the component ends with the status success, a
    message that is shown (the [message] of the body, or "Uploaded" when
    that is absent or empty) and one call of [onSuccess] with the fields of
    the body; the file picked is kept.  The exception is a body that is
    [null]: reading [message] from it throws, and the component ends with
    the status error and no call, although the server accepted the
    upload. *)
Theorem accepted_upload_calls_onSuccess_once
  (res : Api.Response jsval) (w : Effects) :
  Api.ok res = true ->
  let data := try_catch (Api.json res) (fun _ => JObject []) in
  let w' := fst (handleUpload_settled (Return res) w) in
  file (current w') = file (current w)
  /\ if Spec.nullish data
     then status (current w') = error /\ called w' = called w
          /\ message (current w')
             = JString (NullPropertyMessage data (str "message"))
     else status (current w') = success
          /\ message (current w')
             = or_else (Spec.field data (str "message"))
                 (JString (str "Uploaded"))
          /\ message_line (render (current w')) = Some (message (current w'))
          /\ called w' = called w ++ [Spec.info_of data].
Proof.
  intros OK. cbv zeta. rewrite handleUpload_settled_cases. cbv zeta.
  rewrite OK. cbn [fst].
  destruct (Spec.nullish (try_catch (Api.json res) (fun _ => JObject []))).
  - repeat split.
  - split; [reflexivity|]. split; [reflexivity|]. split; [reflexivity|].
    split; [|reflexivity].
    cbn [render message_line Spec.upload_done current setMessage message].
    unfold or_else.
    destruct (truthy (Spec.field _ (str "message"))) eqn:T;
      [rewrite T|]; reflexivity.
Qed.

Lemma or_else_truthy (a b : jsval) : truthy b = true -> truthy (or_else a b) = true.
Proof. unfold or_else; destruct (truthy a) eqn:T; auto. Qed.

(** What a settled fetch leaves of the file, the status and the message. *)
Lemma handleUpload_settled_state
  (fetched : result (Api.Response jsval)) (s : State) :
  let s' := current (fst (handleUpload_settled fetched
                            {| current := s; called := [] |})) in
  file s' = file s /\ isDragging s' = isDragging s
  /\ (status s' = success \/ status s' = error)
  /\ Spec.message_fits_status s'.
Proof.
  cbv zeta. rewrite handleUpload_settled_cases. cbn [fst].
  destruct fetched as [res | ex]; cbv zeta.
  - destruct (Api.ok res);
      destruct (Spec.nullish (try_catch (Api.json res) (fun _ => JObject [])));
      cbn; repeat split; auto; unfold Spec.message_fits_status; cbn;
      try (eexists; reflexivity).
    now apply or_else_truthy.
  - cbn; repeat split; auto. unfold Spec.message_fits_status; cbn.
    eexists; reflexivity.
Qed.

(** What every event keeps of the status and the message. *)
Lemma status_message_step (c : Running) (e : event) :
  Spec.message_fits_status (state c)
  /\ (status (state c) = uploading -> inflight c <> 0)
  -> Spec.message_fits_status (state (fst (fst (step props c e))))
     /\ (status (state (fst (fst (step props c e)))) = uploading
         -> inflight (fst (fst (step props c e))) <> 0).
Proof.
  intros (M & U). destruct e as [f | over | f | | | fetched]; cbn [step].
  - split; [reflexivity | discriminate].
  - split; [exact M | exact U].
  - split; [reflexivity | discriminate].
  - destruct (clear_disabled _); [split; assumption|].
    split; [reflexivity | discriminate].
  - destruct (upload_disabled _); [split; assumption|].
    unfold handleUpload. destruct (file (state c)); [|split; assumption].
    split; [reflexivity | discriminate].
  - destruct (inflight c) as [|n] eqn:I;
      [split; [exact M | cbn [fst]; now rewrite I]|].
    pose proof (handleUpload_settled_state fetched (state c)) as H.
    cbv zeta in H.
    destruct (handleUpload_settled fetched _) as [w r].
    cbn [fst snd state] in *. destruct H as (_ & _ & S & M').
    split; [exact M'|]. intros Up. destruct S as [S | S]; congruence.
Qed.

Lemma status_message_run (evs : list event) (c : Running) :
  Spec.message_fits_status (state c)
  /\ (status (state c) = uploading -> inflight c <> 0)
  -> Spec.message_fits_status (state (fst (fst (run props c evs))))
     /\ (status (state (fst (fst (run props c evs)))) = uploading
         -> inflight (fst (fst (run props c evs))) <> 0).
Proof.
  revert c; induction evs as [|e evs IH]; intros c H; [exact H|].
  cbn [run]. apply status_message_step with (e := e) in H.
  destruct (step props c e) as [[c1 reqs1] infos1]. cbn [fst] in H.
  specialize (IH _ H).
  destruct (run props c1 evs) as [[c2 reqs2] infos2]. exact IH.
Qed.

(** In every state a [FileUpload] reaches, the message fits the status:
    there is none while the status is idle or uploading, after a success
    there is one and it is shown, and after an error it is a string.  So a
    message line is rendered only with the status success or error, and
    while the status is uploading a request is in flight. *)
Theorem upload_message_fits_status (evs : list event) :
  let c := fst (fst (run props start evs)) in
  let s := state c in
  match status s with
  | idle | uploading => message s = JString []
  | success => truthy (message s) = true
  | error => exists text, message s = JString text
  end
  /\ (message_line (render s) <> None
      -> status s = success \/ status s = error)
  /\ (status s = success
      -> message_line (render s) = Some (message s))
  /\ (status s = uploading -> inflight c <> 0).
Proof.
  cbv zeta.
  destruct (@status_message_run evs start) as (M & U);
    [split; [reflexivity | discriminate]|].
  split; [exact M|]. unfold Spec.message_fits_status in M.
  cbn [render message_line].
  split; [|split; [|exact U]].
  - intros N. destruct (status _); auto; rewrite M in N; now elim N.
  - intros S. rewrite S in M. now rewrite M.
Qed.

Lemma step_file (c : Running) (e : event) (f : Api.File) :
  file (state (fst (fst (step props c e)))) = Some f ->
  file (state c) = Some f \/ Spec.picked f e.
Proof.
  destruct e as [f' | over | f' | | | fetched]; cbn [step].
  - intros H; right; left. cbn in H. now rewrite H.
  - intros H; left; exact H.
  - intros H; right; right. cbn in H. now rewrite H.
  - destruct (clear_disabled _); [now left | discriminate].
  - destruct (upload_disabled _); [now left|].
    unfold handleUpload. destruct (file (state c)) eqn:F; cbn; rewrite F;
      intros H; now left.
  - destruct (inflight c) as [|n]; [now left|].
    pose proof (handleUpload_settled_state fetched (state c)) as H.
    cbv zeta in H. destruct (handleUpload_settled fetched _) as [w r].
    cbn [fst snd state] in *. destruct H as (-> & _). now left.
Qed.

Lemma step_requests (c : Running) (e : event) (r : Api.Request) :
  In r (snd (fst (step props c e))) ->
  e = ClickUpload
  /\ exists f, file (state c) = Some f
       /\ r = {| Api.url := endpoint props; Api.method := Api.POST;
                 Api.headers := [];
                 Api.body := Api.FormData [(str "file", f)] |}.
Proof.
  destruct e as [f' | over | f' | | | fetched]; cbn [step];
    try (intros []).
  - destruct (clear_disabled _); intros [].
  - destruct (upload_disabled _); [intros []|].
    unfold handleUpload. destruct (file (state c)) as [f|]; [|intros []].
    intros [<- | []]. split; [reflexivity|]. now exists f.
  - destruct (inflight c); [intros []|].
    destruct (handleUpload_settled fetched _); intros [].
Qed.

Lemma run_requests_file (evs : list event) (c : Running) (r : Api.Request) :
  In r (snd (fst (run props c evs))) ->
  exists f,
    r = {| Api.url := endpoint props; Api.method := Api.POST;
           Api.headers := [];
           Api.body := Api.FormData [(str "file", f)] |}
    /\ (file (state c) = Some f \/ exists e, In e evs /\ Spec.picked f e).
Proof.
  revert c; induction evs as [|e evs IH]; intros c; [intros []|].
  cbn [run]. pose proof (@step_requests c e r) as R.
  pose proof (@step_file c e) as F.
  destruct (step props c e) as [[c1 reqs1] infos1]. cbn [fst snd] in R, F.
  specialize (IH c1).
  destruct (run props c1 evs) as [[c2 reqs2] infos2]. cbn [fst snd] in *.
  rewrite in_app_iff. intros [I | I].
  - destruct (R I) as (_ & f & Fc & ->). exists f. auto.
  - destruct (IH I) as (f & -> & [F1 | (e0 & I0 & P)]); exists f;
      (split; [reflexivity|]).
    + destruct (F f F1) as [Fc | P]; [now left|].
      right. exists e. split; [now left | exact P].
    + right. exists e0. split; [now right | exact P].
Qed.

(** Every request a [FileUpload] sends is a POST to its [endpoint] whose
    form has the one field [file], holding a file that an earlier event
    picked. *)
Theorem upload_requests_carry_a_picked_file
  (evs : list event) (r : Api.Request) :
  In r (snd (fst (run props start evs))) ->
  exists f,
    r = {| Api.url := endpoint props; Api.method := Api.POST;
           Api.headers := [];
           Api.body := Api.FormData [(str "file", f)] |}
    /\ exists e, In e evs /\ (e = Change (Some f) \/ e = Drop (Some f)).
Proof.
  intros I. destruct (run_requests_file evs start r I) as (f & R & [F | P]);
    [discriminate F|].
  exists f. split; [exact R | exact P].
Qed.

Lemma run_app (evs1 evs2 : list event) (c : Running) :
  run props c (evs1 ++ evs2)
  = let '(c1, reqs1, infos1) := run props c evs1 in
    let '(c2, reqs2, infos2) := run props c1 evs2 in
    (c2, reqs1 ++ reqs2, infos1 ++ infos2).
Proof.
  revert c; induction evs1 as [|e evs1 IH]; intros c.
  - cbn. now destruct (run props c evs2) as [[c2 reqs2] infos2].
  - cbn [run app]. destruct (step props c e) as [[c0 reqs0] infos0].
    rewrite IH. destruct (run props c0 evs1) as [[c1 reqs1] infos1].
    destruct (run props c1 evs2) as [[c2 reqs2] infos2].
    now rewrite !app_assoc.
Qed.

(** Picking a file enables the upload button whatever the status is, also
    while an upload is in flight: a file picked and a click on the button
    always send one more request, with the file just picked, and nothing
    bounds the uploads in flight. *)
Theorem picking_a_file_enables_upload (c : Running) (f : Api.File) :
  run props c [Change (Some f); ClickUpload]
  = ({| state := {| file := Some f; status := uploading;
                    message := JString [];
                    isDragging := isDragging (state c) |};
        inflight := S (inflight c) |},
     [{| Api.url := endpoint props; Api.method := Api.POST;
         Api.headers := [];
         Api.body := Api.FormData [(str "file", f)] |}],
     [])
  /\ forall n, exists evs,
       inflight (fst (fst (run props c evs))) = n + inflight c
       /\ List.length (snd (fst (run props c evs))) = n.
Proof.
  split; [reflexivity|].
  induction n as [|n (evs & I & L)]; [exists []; split; reflexivity|].
  exists (evs ++ [Change (Some f); ClickUpload]).
  rewrite run_app.
  destruct (run props c evs) as [[c1 reqs1] infos1]. cbn [fst snd] in *.
  cbn. rewrite length_app, I, L. cbn. split; lia.
Qed.

End UploadSession.

Lemma accepted_upload_example :
  let w' := fst (FileUpload.handleUpload_settled (E := Samples.engine)
                   (Return (Samples.upload_ok "cv.txt")) Samples.uploading) in
  FileUpload.status (FileUpload.current w') = FileUpload.success
  /\ FileUpload.message (FileUpload.current w') = JString (str "Indexed")
  /\ FileUpload.called w'
     = [{| FileUpload.Info.filename := JString (str "cv.txt");
           FileUpload.Info.text_length := JNumber (number_of_Z 8);
           FileUpload.Info.message := JString (str "Indexed") |}].
Proof.
  pose proof (accepted_upload_calls_onSuccess_once (E := Samples.engine)
                (Samples.upload_ok "cv.txt") Samples.uploading eq_refl) as H.
  cbv zeta in H. destruct H as (_ & H).
  change (Spec.nullish
            (try_catch (Api.json (Samples.upload_ok "cv.txt"))
               (fun _ => JObject []))) with false in H.
  cbv iota in H. destruct H as (S & M & _ & C).
  split; [exact S|]. split; [exact M | exact C].
Defined.

Lemma upload_request_example :
  exists f,
    {| Api.url := str "/api/upload/resume"; Api.method := Api.POST;
       Api.headers := [];
       Api.body := Api.FormData [(str "file", Samples.resume_file)] |}
    = {| Api.url := FileUpload.endpoint App.resume_props;
         Api.method := Api.POST; Api.headers := [];
         Api.body := Api.FormData [(str "file", f)] |}
    /\ exists e,
         In e [FileUpload.Change (Some Samples.resume_file);
               FileUpload.ClickUpload]
         /\ (e = FileUpload.Change (Some f) \/ e = FileUpload.Drop (Some f)).
Proof.
  exact (upload_requests_carry_a_picked_file (E := Samples.engine)
           App.resume_props
           [FileUpload.Change (Some Samples.resume_file);
            FileUpload.ClickUpload]
           _ (or_introl eq_refl)).
Defined.

(** ** FileUpload: the help text *)

Section HelpText.
Import FileUpload.
Variable props : Props.

Lemma trimStart_suffix (s : jsstring) : exists p, s = p ++ trimStart s.
Proof.
  induction s as [|c r (p & IH)]; [now exists []|].
  cbn. destruct (is_white c); [|now exists []].
  exists (c :: p). cbn. now rewrite <- IH.
Qed.

Lemma trimStart_head (s : jsstring) :
  match trimStart s with
  | [] => True
  | c :: _ => is_white c = false
  end.
Proof.
  induction s as [|c r IH]; [exact I|].
  cbn. destruct (is_white c) eqn:W; [exact IH | exact W].
Qed.

Lemma trimStart_fixed (s : jsstring) :
  match s with [] => True | c :: _ => is_white c = false end ->
  trimStart s = s.
Proof. destruct s as [|c r]; [reflexivity|]. cbn. now intros ->. Qed.

Lemma trimStart_idem (s : jsstring) : trimStart (trimStart s) = trimStart s.
Proof. apply trimStart_fixed, trimStart_head. Qed.

Lemma trimStart_app_last (s : jsstring) (c : N) :
  is_white c = false -> trimStart (s ++ [c]) = trimStart s ++ [c].
Proof.
  intros W. induction s as [|d r IH]; cbn; [now rewrite W|].
  destruct (is_white d); [exact IH | reflexivity].
Qed.

Lemma trimEnd_head (s : jsstring) :
  match s with [] => True | c :: _ => is_white c = false end ->
  match trimEnd s with [] => True | c :: _ => is_white c = false end.
Proof.
  destruct s as [|c r]; [intros _; exact I|]. intros W.
  unfold trimEnd. cbn [rev]. rewrite trimStart_app_last by exact W.
  rewrite rev_app_distr. exact W.
Qed.

Lemma trimEnd_idem (s : jsstring) : trimEnd (trimEnd s) = trimEnd s.
Proof. unfold trimEnd. now rewrite rev_involutive, trimStart_idem. Qed.

(** [trim] leaves a trimmed string as it is. *)
Lemma trim_idem (s : jsstring) : trim (trim s) = trim s.
Proof.
  unfold trim at 1.
  rewrite (trimStart_fixed (trim s))
    by (unfold trim; apply trimEnd_head, trimStart_head).
  unfold trim. apply trimEnd_idem.
Qed.

Lemma trim_In (s : jsstring) (c : N) : In c (trim s) -> In c s.
Proof.
  unfold trim, trimEnd. rewrite <- in_rev. intros H.
  destruct (trimStart_suffix (rev (trimStart s))) as (p & P).
  assert (I : In c (rev (trimStart s))) by (rewrite P, in_app_iff; now right).
  rewrite <- in_rev in I.
  destruct (trimStart_suffix s) as (q & Q). rewrite Q, in_app_iff. now right.
Qed.

Lemma split_no_sep (sep : N) (s : jsstring) :
  Forall (fun w => ~ In sep w) (split sep s).
Proof.
  induction s as [|c r IH]; cbn; [repeat constructor; intros []|].
  destruct (N.eqb_spec c sep) as [-> | D].
  - constructor; [intros [] | exact IH].
  - destruct (split sep r) as [|w ws]; [repeat constructor; intros [H|[]]; auto|].
    inversion IH as [|? ? Hw Hws]; subst.
    constructor; [|exact Hws]. intros [H | H]; auto.
Qed.

Lemma join_nil (sep : jsstring) (l : list jsstring) :
  Forall (fun w => w <> []) l -> join sep l = [] -> l = [].
Proof.
  destruct l as [|a r]; [reflexivity|].
  intros F; inversion F as [|? ? Ha Hr]; subst.
  cbn. destruct r; [intros ->; now elim Ha|].
  destruct a; [now elim Ha | discriminate].
Qed.

Lemma entries_trimmed :
  Forall (fun t => t <> [] /\ trim t = t /\ ~ In 44%N t) (entries props).
Proof.
  unfold entries. apply Forall_forall. intros t I.
  apply filter_In in I as [I T]. apply in_map_iff in I as (w & <- & I).
  split; [destruct (trim w); [discriminate T | discriminate]|].
  split; [apply trim_idem|].
  intros C. apply trim_In in C.
  pose proof (split_no_sep 44 (accept props)) as F.
  rewrite Forall_forall in F. exact (F w I C).
Qed.

(** The help text always starts with "Accepted: " and goes on with
    something.  It lists the entries of [accept] between commas, each
    trimmed, leaving out the empty ones, so that no entry listed is empty,
    has white space around it or holds a comma; they are joined by the
    separator.  When no entry is left, as for an [accept] that is empty or
    made of commas and white space, the text is "Accepted: PDF or TXT". *)
Theorem helpText_lists_the_accepted_types :
  (exists rest, helpText props = str "Accepted: " ++ rest /\ rest <> [])
  /\ Forall (fun t => t <> [] /\ trim t = t /\ ~ In 44%N t) (entries props)
  /\ (entries props = [] -> helpText props = str "Accepted: PDF or TXT")
  /\ (entries props <> [] ->
      helpText props = str "Accepted: " ++ join bullet (entries props))
  /\ (forallb (fun c => is_white c || (c =? 44)%N) (accept props) = true ->
      entries props = []).
Proof.
  pose proof entries_trimmed as F.
  assert (NE : Forall (fun w : jsstring => w <> []) (entries props)).
  { eapply Forall_impl; [|exact F]. now intros t (H & _). }
  split.
  { unfold helpText. destruct (types props) eqn:T; cbn [truthy].
    - exists (str "PDF or TXT"). split; [reflexivity | discriminate].
    - eexists. split; [reflexivity | discriminate]. }
  split; [exact F|]. split.
  { intros Z. unfold helpText, types. now rewrite Z. }
  split.
  { intros Z. unfold helpText, types.
    destruct (join bullet (entries props)) eqn:J; [|reflexivity].
    elim Z. exact (join_nil _ NE J). }
  intros W. unfold entries.
  assert (B : forall s, forallb (fun c => is_white c || (c =? 44)%N) s = true ->
                        Forall (fun w => forallb is_white w = true)
                          (split 44 s)).
  { induction s as [|c r IH]; cbn; [intros _; repeat constructor|].
    intros H. apply andb_true_iff in H as [Hc Hr]. specialize (IH Hr).
    destruct (N.eqb_spec c 44) as [-> | D]; [now constructor|].
    rewrite orb_false_r in Hc.
    destruct (split 44 r) as [|w ws]; [repeat constructor; cbn; now rewrite Hc|].
    inversion IH as [|? ? Hw Hws]; subst.
    constructor; [cbn; now rewrite Hc | exact Hws]. }
  specialize (B _ W). induction B as [|w ws Hw _ IH]; [reflexivity|].
  cbn. rewrite (trim_white _ Hw). exact IH.
Qed.

End HelpText.

(** ** App over a session *)

Section Session.
Context {E : Engine}.
Import App.

Lemma page_run_app (evs1 evs2 : list event) (p : Page) :
  run p (evs1 ++ evs2)
  = (fst (run (fst (run p evs1)) evs2),
     snd (run p evs1) ++ snd (run (fst (run p evs1)) evs2)).
Proof.
  revert p; induction evs1 as [|e evs1 IH]; intros p.
  - cbn. now destruct (run p evs2).
  - cbn [run List.app]. destruct (step p e) as [p1 out]. rewrite IH.
    destruct (run p1 evs1) as [p2 outs]. reflexivity.
Qed.

(** What an event does to [loading] and to the analysis requests in
    flight. *)
Lemma step_loading (p : Page) (e : event) :
  (loading (app (fst (step p e))) = loading (app p)
   /\ analysis_inflight (fst (step p e)) = analysis_inflight p)
  \/ (e = ClickRunAnalysis /\ canAnalyze (app p) = true
      /\ loading (app p) = false
      /\ loading (app (fst (step p e))) = true
      /\ analysis_inflight (fst (step p e)) = S (analysis_inflight p))
  \/ (exists fetched, e = AnalysisSettled fetched
      /\ analysis_inflight p = S (analysis_inflight (fst (step p e)))
      /\ loading (app (fst (step p e))) = false).
Proof.
  destruct e as [[|] e' | | fetched | e' | fetched].
  - left.
    destruct (step_Upload_Resume p e')
      as (_ & _ & -> & [-> | (res & _ & _ & ->)]); split; reflexivity.
  - left.
    destruct (step_Upload_JD p e')
      as (_ & _ & -> & [-> | (res & _ & _ & ->)]); split; reflexivity.
  - cbn [step render analysis_section].
    destruct (canAnalyze (app p)) eqn:C; cbn [negb]; [|left; split; reflexivity].
    destruct (loading (app p)) eqn:L;
      [left; cbn [fst]; rewrite L; split; reflexivity|].
    right; left. repeat split.
  - cbn [step]. destruct (analysis_inflight p) as [|n] eqn:I;
      [left; split; [reflexivity | exact I]|].
    right; right. exists fetched. cbn [fst app analysis_inflight].
    destruct (loadAnalysis_settled_flags fetched (app p))
      as (_ & _ & _ & _ & ->).
    repeat split.
  - left. cbn [step]. destruct (chat_section _); [split; reflexivity|].
    destruct (ChatInterface.step (chat p) e'); split; reflexivity.
  - left. cbn [step fst app analysis_inflight].
    destruct (check_settled_flags fetched (app p)) as (_ & _ & _ & _ & ->).
    split; reflexivity.
Qed.

Lemma analysis_step (p : Page) (e : event) :
  Spec.one_analysis_while_loading p ->
  Spec.one_analysis_while_loading (fst (step p e)).
Proof.
  unfold Spec.one_analysis_while_loading. intros I.
  destruct (step_loading p e)
    as [(L & F) | [(_ & _ & L & L' & F) | (f & _ & F & L')]].
  - now rewrite L, F.
  - rewrite L', F, I, L. reflexivity.
  - rewrite L'. rewrite F in I.
    destruct (loading (app p)); [now injection I | discriminate I].
Qed.

Lemma analysis_run (evs : list event) (p : Page) :
  Spec.one_analysis_while_loading p ->
  Spec.one_analysis_while_loading (fst (run p evs)).
Proof.
  revert p; induction evs as [|e evs IH]; intros p I; [exact I|].
  cbn [run]. apply analysis_step with (e := e) in I.
  destruct (step p e) as [p1 out]. cbn [fst] in I. specialize (IH _ I).
  destruct (run p1 evs); exact IH.
Qed.

(** In every state the page reaches, at most one analysis request is in
    flight, and one is in flight exactly while [loading] is true; while
    loading the run button is disabled and a click on it changes nothing
    and sends nothing. *)
Theorem at_most_one_analysis_request_in_flight (evs : list event) :
  let p := fst (run start evs) in
  analysis_inflight p <= 1
  /\ (analysis_inflight p = 1 <-> loading (app p) = true)
  /\ (loading (app p) = true ->
      step p ClickRunAnalysis = (p, [])
      /\ forall c, match analysis_section (render (app p) c) with
                   | AnalysisPanel run_disabled _ _ _ => run_disabled = true
                   | AnalysisHint => True
                   end).
Proof.
  cbv zeta.
  assert (I : Spec.one_analysis_while_loading (fst (run start evs)))
    by (apply analysis_run; reflexivity).
  unfold Spec.one_analysis_while_loading in I.
  split; [rewrite I; destruct (loading _); lia|].
  split; [rewrite I; destruct (loading _); split; congruence|].
  intros L. split.
  - cbn [step render analysis_section]. rewrite L.
    destruct (canAnalyze _); reflexivity.
  - intros c. cbn [render analysis_section]. rewrite L.
    destruct (canAnalyze _); cbn; auto.
Qed.

Lemma step_flags_kept (p : Page) (e : event) :
  (resumeUploaded (app p) = true -> resumeUploaded (app (fst (step p e))) = true)
  /\ (jdUploaded (app p) = true -> jdUploaded (app (fst (step p e))) = true).
Proof.
  destruct (step_flags p e) as [[R | [R _]] [J | [J _]]];
    split; intros H; congruence.
Qed.

Lemma run_flags_kept (evs : list event) (p : Page) :
  (resumeUploaded (app p) = true -> resumeUploaded (app (fst (run p evs))) = true)
  /\ (jdUploaded (app p) = true -> jdUploaded (app (fst (run p evs))) = true).
Proof.
  revert p; induction evs as [|e evs IH]; intros p; [split; auto|].
  cbn [run]. pose proof (step_flags_kept p e) as [R J].
  destruct (step p e) as [p1 out]. cbn [fst] in R, J.
  destruct (IH p1) as [R1 J1]. destruct (run p1 evs) as [p2 outs].
  cbn [fst] in *. split; auto.
Qed.

(** An analysis that is displayed or requested has both uploads. *)
Lemma analysis_step_uploads (p : Page) (e : event) :
  (analysis (app p) <> None \/ analysis_inflight p <> 0
   -> canAnalyze (app p) = true)
  -> analysis (app (fst (step p e))) <> None
     \/ analysis_inflight (fst (step p e)) <> 0
  -> canAnalyze (app (fst (step p e))) = true.
Proof.
  intros Inv H.
  assert (K : canAnalyze (app p) = true
              -> canAnalyze (app (fst (step p e))) = true).
  { unfold canAnalyze. intros C. apply andb_true_iff in C as [R J].
    destruct (step_flags_kept p e) as [R' J']. rewrite R', J'; auto. }
  destruct e as [[|] e' | | fetched | e' | fetched].
  - destruct (step_Upload_Resume p e')
      as (_ & _ & I & [A | (res & _ & _ & A)]); rewrite I, A in H.
    + auto.
    + destruct H as [H | H]; [now elim H | auto].
  - destruct (step_Upload_JD p e')
      as (_ & _ & I & [A | (res & _ & _ & A)]); rewrite I, A in H.
    + auto.
    + destruct H as [H | H]; [now elim H | auto].
  - revert H K. cbn [step render analysis_section].
    destruct (canAnalyze (app p)) eqn:C; cbn [negb]; [auto|].
    cbn [fst]. intros H _. rewrite C. auto.
  - revert H K. cbn [step].
    destruct (analysis_inflight p) as [|n] eqn:I; cbn [fst]; [rewrite I; auto|].
    intros _ K. apply K, Inv. right. discriminate.
  - revert H K. cbn [step]. destruct (chat_section _); [auto|].
    destruct (ChatInterface.step (chat p) e'); cbn; auto.
  - revert H K. cbn [step fst app analysis_inflight].
    destruct (check_settled_flags fetched (app p)) as (_ & _ & -> & _).
    auto.
Qed.

Lemma analysis_run_uploads (evs : list event) (p : Page) :
  (analysis (app p) <> None \/ analysis_inflight p <> 0
   -> canAnalyze (app p) = true)
  -> analysis (app (fst (run p evs))) <> None
     \/ analysis_inflight (fst (run p evs)) <> 0
  -> canAnalyze (app (fst (run p evs))) = true.
Proof.
  revert p; induction evs as [|e evs IH]; intros p Inv; [exact Inv|].
  cbn [run]. pose proof (@analysis_step_uploads p e Inv) as S.
  destruct (step p e) as [p1 out]. cbn [fst] in S. specialize (IH p1 S).
  destruct (run p1 evs); exact IH.
Qed.

(** Over every session of the page: an upload flag that is set stays set,
    so the chat component, once rendered, stays rendered; and an analysis
    is displayed only with both flags set, so whenever there is one the
    analysis section renders its panel. *)
Theorem displayed_analysis_has_both_uploads (evs evs' : list event) :
  let p := fst (run start evs) in
  let p' := fst (run start (evs ++ evs')) in
  (resumeUploaded (app p) = true ->
   resumeUploaded (app p') = true
   /\ forall c, chat_section (render (app p') c)
                = ChatPanel (ChatInterface.render c))
  /\ (jdUploaded (app p) = true -> jdUploaded (app p') = true)
  /\ (forall a, analysis (app p) = Some a ->
      resumeUploaded (app p) = true /\ jdUploaded (app p) = true
      /\ forall c, exists run_disabled stats error_line,
           analysis_section (render (app p) c)
           = AnalysisPanel run_disabled stats error_line
               (Some (MatchAnalysis.render a))).
Proof.
  cbv zeta. rewrite page_run_app. cbn [fst].
  destruct (run_flags_kept evs' (fst (run start evs))) as [R J].
  split.
  { intros H. specialize (R H). split; [exact R|].
    intros c. cbn [render chat_section]. now rewrite R. }
  split; [exact J|].
  intros a A.
  assert (C : canAnalyze (app (fst (run start evs))) = true).
  { apply analysis_run_uploads.
    - intros [H | H]; now elim H.
    - left. rewrite A. discriminate. }
  pose proof C as C'. unfold canAnalyze in C'.
  apply andb_true_iff in C' as [HR HJ].
  split; [exact HR|]. split; [exact HJ|].
  intros c. cbn [render analysis_section]. rewrite C, A. cbn.
  eexists _, _, _. reflexivity.
Qed.


Lemma loadAnalysis_settled_backendOk
  (fetched : result (Api.Response Api.AnalysisResponse.t)) (s : State) :
  backendOk (loadAnalysis_settled fetched s) = backendOk s.
Proof.
  destruct fetched as [res | e]; [|reflexivity].
  unfold loadAnalysis_settled. cbn [bind Monad_result result_bind].
  destruct (Api.json res) as [data | e]; [|reflexivity].
  cbn [bind Monad_result result_bind try_catch].
  destruct (Api.AnalysisResponse.success data);
    [destruct (Api.AnalysisResponse.analysis data)|]; reflexivity.
Qed.

Lemma step_backendOk (p : Page) (e : event) :
  (forall f, e <> HealthSettled f) ->
  backendOk (app (fst (step p e))) = backendOk (app p).
Proof.
  intros NH. destruct e as [[|] e' | | fetched | e' | fetched].
  - destruct (step_Upload_Resume p e')
      as (_ & _ & _ & [-> | (res & _ & _ & ->)]); reflexivity.
  - destruct (step_Upload_JD p e')
      as (_ & _ & _ & [-> | (res & _ & _ & ->)]); reflexivity.
  - cbn [step]. destruct (analysis_section _) as [|[|] ? ? ?]; reflexivity.
  - cbn [step]. destruct (analysis_inflight p); [reflexivity|].
    apply loadAnalysis_settled_backendOk.
  - cbn [step]. destruct (chat_section _); [reflexivity|].
    destruct (ChatInterface.step (chat p) e'); reflexivity.
  - now elim (NH fetched).
Qed.

Lemma run_backendOk (evs : list event) (p : Page) :
  (forall e, In e evs -> forall f, e <> HealthSettled f) ->
  backendOk (app (fst (run p evs))) = backendOk (app p).
Proof.
  revert p; induction evs as [|e evs IH]; intros p NH; [reflexivity|].
  cbn [run]. pose proof (@step_backendOk p e (NH e (or_introl eq_refl))) as S.
  destruct (step p e) as [p1 out]. cbn [fst] in S.
  specialize (IH p1 (fun e0 I => NH e0 (or_intror I))).
  destruct (run p1 evs) as [p2 outs]. cbn [fst] in *. congruence.
Qed.

(** The badge follows the last health check that settled: connected when
    its response was OK, not reachable when it was not OK or the fetch
    rejected; no other event changes the badge, and a health check changes
    nothing but the badge. *)
Theorem backend_badge_follows_the_last_check
  (evs evs' : list event) (fetched : result (Api.Response unit)) :
  (forall e, In e evs' -> forall f, e <> HealthSettled f) ->
  let p0 := fst (run start evs) in
  let p1 := fst (step p0 (HealthSettled fetched)) in
  let p := fst (run start (evs ++ HealthSettled fetched :: evs')) in
  let up := match fetched with Return res => Api.ok res | Throw _ => false end in
  backendOk (app p) = Some up
  /\ badge (app p) = (if up then str "Backend connected"
                      else str "Backend not reachable")
  /\ app p1 = setBackendOk (Some up) (app p0)
  /\ resume p1 = resume p0 /\ jd p1 = jd p0 /\ chat p1 = chat p0
  /\ snd (step p0 (HealthSettled fetched)) = [].
Proof.
  intros NH. cbv zeta. rewrite page_run_app. cbn [fst run].
  assert (B : backendOk
                (app (fst (step (fst (run start evs)) (HealthSettled fetched))))
              = Some match fetched with
                     | Return res => Api.ok res
                     | Throw _ => false
                     end)
    by (destruct fetched; reflexivity).
  destruct (step (fst (run start evs)) (HealthSettled fetched)) as [p1 out] eqn:S.
  pose proof (@run_backendOk evs' p1 NH) as R.
  destruct (run p1 evs') as [p2 outs]. cbn [fst snd] in *.
  split; [congruence|]. split.
  { unfold badge. rewrite R, B. now destruct fetched as [[[] ? ?]|]. }
  cbn [step] in S. injection S as <- <-.
  destruct fetched; repeat split.
Qed.

(** The components that do not call the client of [api.ts] send the
    requests it would send: a [FileUpload] with the props [App] gives it
    sends the request of [uploadResume] or [uploadJD] for the file picked,
    and [loadAnalysis] sends the request of [getAnalysis]. *)
Theorem components_send_the_requests_of_the_client
  (u : FileUpload.State) (s : State) :
  snd (FileUpload.handleUpload resume_props u)
  = option_map (fun f => Api.request (Api.uploadResume f)) (FileUpload.file u)
  /\ snd (FileUpload.handleUpload jd_props u)
     = option_map (fun f => Api.request (Api.uploadJD f)) (FileUpload.file u)
  /\ snd (loadAnalysis s) = Api.request Api.getAnalysis.
Proof.
  unfold FileUpload.handleUpload.
  destruct (FileUpload.file u); repeat split.
Qed.

(** The quick stats of [App] and the panel of [MatchAnalysis] count the
    same lists: the two skill counts agree, each list block has as many
    items as its list, or the one placeholder item when the list is empty,
    and the skills row is left out exactly when both skill counts are 0. *)
Theorem quick_stats_agree_with_the_panel (s : State) (a : Api.MatchAnalysis) :
  analysis s = Some a ->
  let v := MatchAnalysis.render a in
  exists q,
    quickStats s = Some q
    /\ overlap q = MatchAnalysis.overlapping v
    /\ missing q = MatchAnalysis.missing v
    /\ List.length (MatchAnalysis.strengths_block v) = Nat.max 1 (strengths q)
    /\ List.length (MatchAnalysis.gaps_block v) = Nat.max 1 (gaps q)
    /\ List.length (MatchAnalysis.insights_block v)
       = Nat.max 1 (List.length (Api.key_insights a))
    /\ (MatchAnalysis.skills_row v = None <-> overlap q = 0 /\ missing q = 0)
    /\ (strengths q = 0 <->
        MatchAnalysis.strengths_block v
        = [MatchAnalysis.EmptyItem (str "None identified")])
    /\ (gaps q = 0 <->
        MatchAnalysis.gaps_block v
        = [MatchAnalysis.EmptyItem (str "None identified")]).
Proof.
  intros A. cbv zeta. unfold quickStats. rewrite A.
  eexists. split; [reflexivity|].
  cbn [overlap missing strengths gaps MatchAnalysis.render
       MatchAnalysis.overlapping MatchAnalysis.missing
       MatchAnalysis.strengths_block MatchAnalysis.gaps_block
       MatchAnalysis.insights_block MatchAnalysis.skills_row].
  assert (B : forall l none,
             List.length (MatchAnalysis.bullet_list l none)
             = Nat.max 1 (List.length l)
             /\ (List.length l = 0
                 <-> MatchAnalysis.bullet_list l none
                     = [MatchAnalysis.EmptyItem none])).
  { intros [|x l] none; cbn; [tauto|].
    rewrite length_map. split; [reflexivity|].
    split; intros H; discriminate H. }
  split; [reflexivity|]. split; [reflexivity|].
  split; [apply B|]. split; [apply B|]. split; [apply B|].
  split; [|split; apply B].
  destruct (Api.skill_overlap a), (Api.missing_skills a); cbn;
    split; try tauto; try discriminate; intros [H1 H2]; discriminate.
Qed.

End Session.


Lemma backend_down_example :
  let p := fst (App.run (E := Samples.engine) App.start
                  Samples.backend_down) in
  App.backendOk (App.app p) = Some false
  /\ App.badge (App.app p) = str "Backend not reachable".
Proof.
  pose proof (backend_badge_follows_the_last_check (E := Samples.engine)
                [] [App.ClickRunAnalysis]
                (Throw (Exn TypeError (str "Failed to fetch")))) as H.
  cbv zeta in H.
  destruct H as (B & T & _).
  - intros e [<- | []] f. discriminate.
  - split; [exact B | exact T].
Defined.

Lemma quick_stats_example :
  let v := MatchAnalysis.render (E := Samples.engine) Samples.an_analysis in
  exists q,
    App.quickStats (App.setAnalysis (Some Samples.an_analysis) App.initial)
    = Some q
    /\ App.overlap q = 2 /\ App.missing q = 1
    /\ List.length (MatchAnalysis.strengths_block v) = 2
    /\ List.length (MatchAnalysis.gaps_block v) = 1.
Proof.
  destruct (quick_stats_agree_with_the_panel (E := Samples.engine)
              (App.setAnalysis (Some Samples.an_analysis) App.initial)
              eq_refl) as (q & Q & O & M & S & G & _).
  exists q. cbv zeta in *. injection Q as <-.
  split; [reflexivity|]. split; [exact O|]. split; [exact M|].
  split; [exact S | exact G].
Defined.
